(** * KiteTickerWrapper: subscription and session tracker

    A shallow embedding of [src/kite_websocket.py] (class
    [KiteTickerWrapper]) and the properties of its subscription map, tick
    history, reconnect handling and callback fan-out.

    The wrapper object is a record of its attributes.  What lives outside
    the object (the vendor client [self.kws], the wall clock, the logger
    and the registered observer functions) is an explicit [World] on which
    every effect leaves a trace, so that statements about "which vendor
    calls were issued" or "which observers ran" are statements about data. *)

From Stdlib Require Import ZArith String Bool Lia List Permutation.
Import ListNotations.

Local Open Scope string_scope.
Local Open Scope list_scope.

(** ** Python values *)

(** Keys of a Python [dict]: a type with a boolean equality. *)
Class EqKey (K : Type) := {
  keqb : K -> K -> bool;
  keqb_spec : forall a b : K, reflect (a = b) (keqb a b)
}.

#[global] Instance EqKey_Z : EqKey Z :=
  {| keqb := Z.eqb; keqb_spec := Z.eqb_spec |}.

#[global] Instance EqKey_string : EqKey string :=
  {| keqb := String.eqb; keqb_spec := String.eqb_spec |}.

(** A [dict] keeps its keys in insertion order; iteration ([items()])
    follows that order, which decides the order of the vendor calls made
    on resubscription.  Hence an association list and not a finite map. *)
Module PyDict.
Section Dict.
Context {K V : Type} `{EqKey K}.

Definition t := list (K * V).

Definition empty : t := [].

(** [d.get(k)] *)
Fixpoint get (k : K) (d : t) : option V :=
  match d with
  | [] => None
  | (k', v) :: d' => if keqb k k' then Some v else get k d'
  end.

(** [k in d] *)
Definition contains (k : K) (d : t) : bool :=
  match get k d with Some _ => true | None => false end.

(** [d[k] = v]: an existing key keeps its position, a new key goes last. *)
Fixpoint set (k : K) (v : V) (d : t) : t :=
  match d with
  | [] => [(k, v)]
  | (k', v') :: d' =>
      if keqb k k' then (k', v) :: d' else (k', v') :: set k v d'
  end.

(** [d.pop(k, None)], result dropped. *)
Definition pop (k : K) (d : t) : t :=
  filter (fun kv => negb (keqb k (fst kv))) d.

Definition keys (d : t) : list K := map fst d.

(** [d.items()] *)
Definition items (d : t) : list (K * V) := d.

(** truth value of a dict: non-empty *)
Definition truthy (d : t) : bool :=
  match d with [] => false | _ :: _ => true end.
End Dict.
Arguments t : clear implicits.
End PyDict.

(** [defaultdict(list)]: [d[k]] on a missing key first stores [[]]. *)
Definition dd_getitem {K A} `{EqKey K} (k : K) (d : PyDict.t K (list A))
  : list A * PyDict.t K (list A) :=
  match PyDict.get k d with
  | Some l => (l, d)
  | None => ([], PyDict.set k [] d)
  end.

(** [d[k].append(x)] on a [defaultdict(list)] *)
Definition dd_append {K A} `{EqKey K} (k : K) (x : A) (d : PyDict.t K (list A))
  : PyDict.t K (list A) :=
  let (l, d1) := dd_getitem k d in
  PyDict.set k (l ++ [x]) d1.

(** The slice [l[start:]]: a negative [start] counts from the end, and
    both ends are clamped to the list. *)
Definition slice_from {A} (start : Z) (l : list A) : list A :=
  let len := Z.of_nat (length l) in
  let i := if (start <? 0)%Z then Z.max (len + start) 0 else Z.min start len in
  skipn (Z.to_nat i) l.

(** Truth value of an optional integer argument ([if count:]). *)
Definition truthy_int (c : option Z) : bool :=
  match c with
  | None => false
  | Some z => negb (z =? 0)%Z
  end.

(** [a or b] on an optional string: [None] and [""] are falsy. *)
Definition str_or (a : option string) (b : string) : string :=
  match a with
  | None => b
  | Some s => if (s =? "")%string then b else s
  end.

(** [x in l] on a list of strings *)
Definition str_in (x : string) (l : list string) : bool :=
  existsb (String.eqb x) l.

(** The argument [instruments]: declared [List[int]], but a bare token is
    accepted and wrapped ([if not isinstance(instruments, list)]). *)
Inductive Instruments :=
| TokenList (l : list Z)
| OneToken (token : Z).

Definition as_list (i : Instruments) : list Z :=
  match i with
  | TokenList l => l
  | OneToken t => [t]
  end.

(** ** Data carried by the wrapper *)

(** A decoded tick, as the vendor client delivers it: a dict that always
    has the key ['instrument_token']; the other fields are kept as they
    come. *)
Record Tick := mkTick {
  instrument_token : Z;
  tick_fields : list (string * Z)
}.

(** An order update payload; ['order_id'] is read with [.get]. *)
Record OrderData := mkOrder {
  order_id : option string;
  order_fields : list (string * string)
}.

(** [{'timestamp': datetime.now(), 'data': x}] *)
Record Stamped (A : Type) := mkStamped {
  timestamp : Z;
  data : A
}.
Arguments mkStamped {A}.
Arguments timestamp {A}.
Arguments data {A}.

(** The vendor's mode constants ([self.kws.MODE_LTP] and so on); their
    values are the ones the docstrings of [subscribe] and [set_mode] name:
    ['ltp'], ['quote'], ['full']. *)
Definition MODE_LTP : string := "ltp".
Definition MODE_QUOTE : string := "quote".
Definition MODE_FULL : string := "full".

(** The data attributes of the object (everything but the observer
    lists).  An observer may hold a reference to the wrapper and read
    these while it runs. *)
Record Store := mkStore {
  tick_data : PyDict.t Z (list (Stamped Tick));
  latest_ticks : PyDict.t Z Tick;
  subscribed_instruments : PyDict.t Z string;
  order_updates : list (Stamped OrderData);
  connection_status : string;
  connection_count : Z;
  last_tick_time : option Z;
  is_running : bool
}.

(** Exceptions (instances of Python's [Exception]): the [ValueError] of
    the mode check, or whatever a vendor call or an observer raised,
    identified by a tag. *)
Inductive Exn :=
| InvalidMode (valid_modes : list string)
| Other (tag : nat).

(** What an observer is called with. *)
Inductive CbArg :=
| TicksArg (ticks : list Tick)
| ConnectArg (response : string)
| DisconnectArg (code : Z) (reason : string)
| ErrorArg (code : Z) (reason : string)
| OrderArg (order : OrderData).

(** A registered observer: it sees the wrapper's data as it is when it is
    called, and returns ([None]) or raises. *)
Record Callback := mkCallback {
  cb_id : nat;
  cb_call : Store -> CbArg -> option nat
}.

Record Wrapper := mkWrapper {
  store : Store;
  custom_tick_callbacks : list Callback;
  custom_connect_callbacks : list Callback;
  custom_disconnect_callbacks : list Callback;
  custom_error_callbacks : list Callback;
  custom_order_callbacks : list Callback
}.

(** ** The world around the wrapper *)

(** Calls on the vendor client [self.kws]. *)
Inductive KwsCall :=
| KwsSubscribe (tokens : list Z)
| KwsSetMode (mode : string) (tokens : list Z)
| KwsUnsubscribe (tokens : list Z)
| KwsConnect
| KwsClose
| KwsIsConnected.

Inductive Level := DEBUG | INFO | WARNING | ERROR.

(** One observer invocation: who, with what, and the data it could see. *)
Record Invocation := mkInvocation {
  inv_id : nat;
  inv_arg : CbArg;
  inv_seen : Store
}.

Record World := mkWorld {
  kws_calls : list KwsCall;        (* vendor calls so far, oldest first *)
  clock_reads : nat;               (* number of [datetime.now()] so far *)
  invocations : list Invocation;   (* observer calls so far, oldest first *)
  log : list (Level * string)      (* logger output, oldest first *)
}.

(** The behaviour of what the wrapper does not control: whether a vendor
    call raises (it may depend on all earlier calls), and what the clock
    shows at its n-th reading. *)
Record Env := mkEnv {
  kws_raises : list KwsCall -> KwsCall -> option nat;
  now : nat -> Z
}.

(** ** Field updates *)

Definition set_tick_data v (s : Store) : Store :=
  mkStore v (latest_ticks s) (subscribed_instruments s) (order_updates s)
          (connection_status s) (connection_count s) (last_tick_time s)
          (is_running s).

Definition set_latest_ticks v (s : Store) : Store :=
  mkStore (tick_data s) v (subscribed_instruments s) (order_updates s)
          (connection_status s) (connection_count s) (last_tick_time s)
          (is_running s).

Definition set_subscribed_instruments v (s : Store) : Store :=
  mkStore (tick_data s) (latest_ticks s) v (order_updates s)
          (connection_status s) (connection_count s) (last_tick_time s)
          (is_running s).

Definition set_order_updates v (s : Store) : Store :=
  mkStore (tick_data s) (latest_ticks s) (subscribed_instruments s) v
          (connection_status s) (connection_count s) (last_tick_time s)
          (is_running s).

Definition set_connection_status v (s : Store) : Store :=
  mkStore (tick_data s) (latest_ticks s) (subscribed_instruments s)
          (order_updates s) v (connection_count s) (last_tick_time s)
          (is_running s).

Definition set_connection_count v (s : Store) : Store :=
  mkStore (tick_data s) (latest_ticks s) (subscribed_instruments s)
          (order_updates s) (connection_status s) v (last_tick_time s)
          (is_running s).

Definition set_last_tick_time v (s : Store) : Store :=
  mkStore (tick_data s) (latest_ticks s) (subscribed_instruments s)
          (order_updates s) (connection_status s) (connection_count s) v
          (is_running s).

Definition set_is_running v (s : Store) : Store :=
  mkStore (tick_data s) (latest_ticks s) (subscribed_instruments s)
          (order_updates s) (connection_status s) (connection_count s)
          (last_tick_time s) v.

Definition set_store v (w : Wrapper) : Wrapper :=
  mkWrapper v (custom_tick_callbacks w) (custom_connect_callbacks w)
            (custom_disconnect_callbacks w) (custom_error_callbacks w)
            (custom_order_callbacks w).

(** ** A state and exception monad

    A method runs on the pair of the object and the world; it returns or
    raises, and what it did before raising stays done. *)

Inductive Result (A : Type) :=
| Ok (a : A)
| Raised (e : Exn).
Arguments Ok {A}.
Arguments Raised {A}.

Definition State : Type := Wrapper * World.

Definition M (A : Type) : Type := State -> Result A * State.

Definition ret {A} (a : A) : M A := fun s => (Ok a, s).

Definition bind {A B} (m : M A) (k : A -> M B) : M B :=
  fun s =>
    match m s with
    | (Ok a, s') => k a s'
    | (Raised e, s') => (Raised e, s')
    end.

Definition raise {A} (e : Exn) : M A := fun s => (Raised e, s).

(** [try: m  except Exception as e: h e] *)
Definition try_except {A} (m : M A) (h : Exn -> M A) : M A :=
  fun s =>
    match m s with
    | (Ok a, s') => (Ok a, s')
    | (Raised e, s') => h e s'
    end.

Notation "x <- m ;; k" := (bind m (fun x => k))
  (at level 61, m at next level, right associativity).
Notation "m ;; k" := (bind m (fun _ => k))
  (at level 61, right associativity).

(** [for x in l: body x] *)
Fixpoint for_each {A} (l : list A) (body : A -> M unit) : M unit :=
  match l with
  | [] => ret tt
  | x :: l' => body x ;; for_each l' body
  end.

Definition get_store : M Store := fun s => (Ok (store (fst s)), s).

Definition get_self : M Wrapper := fun s => (Ok (fst s), s).

Definition modify_store (f : Store -> Store) : M unit :=
  fun s => (Ok tt, (set_store (f (store (fst s))) (fst s), snd s)).

Definition modify_self (f : Wrapper -> Wrapper) : M unit :=
  fun s => (Ok tt, (f (fst s), snd s)).

(** [self.logger.<level>(msg)]; the interpolated values of the f-strings
    are not kept. *)
Definition logger (lvl : Level) (msg : string) : M unit :=
  fun s =>
    let w := snd s in
    (Ok tt, (fst s, mkWorld (kws_calls w) (clock_reads w) (invocations w)
                            (log w ++ [(lvl, msg)]))).

(** [callback(arg)] *)
Definition call (cb : Callback) (arg : CbArg) : M unit :=
  fun s =>
    let w := snd s in
    let seen := store (fst s) in
    let s' := (fst s, mkWorld (kws_calls w) (clock_reads w)
                              (invocations w ++ [mkInvocation (cb_id cb) arg seen])
                              (log w)) in
    match cb_call cb seen arg with
    | None => (Ok tt, s')
    | Some tag => (Raised (Other tag), s')
    end.

(** The loop every handler ends with:
    [for callback in cbs: try: callback(arg) except Exception as e: log]. *)
Definition dispatch (cbs : list Callback) (arg : CbArg) (msg : string) : M unit :=
  for_each cbs (fun callback =>
    try_except (call callback arg) (fun e => logger ERROR msg)).

Section Methods.
Variable env : Env.

(** [datetime.now()] *)
Definition datetime_now : M Z :=
  fun s =>
    let w := snd s in
    (Ok (now env (clock_reads w)),
     (fst s, mkWorld (kws_calls w) (S (clock_reads w)) (invocations w) (log w))).

(** A call on [self.kws]. *)
Definition kws (c : KwsCall) : M unit :=
  fun s =>
    let w := snd s in
    let s' := (fst s, mkWorld (kws_calls w ++ [c]) (clock_reads w)
                              (invocations w) (log w)) in
    match kws_raises env (kws_calls w) c with
    | None => (Ok tt, s')
    | Some tag => (Raised (Other tag), s')
    end.

(** [subscribe(self, instruments, mode=None, resubscribe=False)] *)
Definition subscribe (instruments : Instruments) (mode : option string)
           (resubscribe : bool) : M unit :=
  let instruments := as_list instruments in
  let mode := str_or mode MODE_QUOTE in
  let valid_modes := [MODE_LTP; MODE_QUOTE; MODE_FULL] in
  if negb (str_in mode valid_modes) then raise (InvalidMode valid_modes)
  else
    try_except
      (kws (KwsSubscribe instruments) ;;
       (if negb (mode =? MODE_QUOTE)%string
        then kws (KwsSetMode mode instruments) else ret tt) ;;
       for_each instruments (fun token =>
         modify_store (fun s =>
           set_subscribed_instruments
             (PyDict.set token mode (subscribed_instruments s)) s)) ;;
       logger INFO (if resubscribe then "Resubscribed to instruments"
                    else "Subscribed to instruments"))
      (fun e => logger ERROR "Error subscribing to instruments" ;; raise e).

(** [unsubscribe(self, instruments)] *)
Definition unsubscribe (instruments : Instruments) : M unit :=
  let instruments := as_list instruments in
  try_except
    (kws (KwsUnsubscribe instruments) ;;
     for_each instruments (fun token =>
       modify_store (fun s =>
         set_subscribed_instruments
           (PyDict.pop token (subscribed_instruments s)) s) ;;
       modify_store (fun s =>
         set_latest_ticks (PyDict.pop token (latest_ticks s)) s)) ;;
     logger INFO "Unsubscribed from instruments")
    (fun e => logger ERROR "Error unsubscribing from instruments" ;; raise e).

(** [set_mode(self, mode, instruments)] *)
Definition set_mode (mode : string) (instruments : Instruments) : M unit :=
  let instruments := as_list instruments in
  try_except
    (kws (KwsSetMode mode instruments) ;;
     for_each instruments (fun token =>
       s <- get_store ;;
       if PyDict.contains token (subscribed_instruments s)
       then modify_store (fun s =>
              set_subscribed_instruments
                (PyDict.set token mode (subscribed_instruments s)) s)
       else ret tt) ;;
     logger INFO "Set mode for instruments")
    (fun e => logger ERROR "Error setting mode" ;; raise e).

(** The grouping loop of [_resubscribe_all]:
    [for token, mode in items: mode_groups[mode].append(token)]. *)
Definition group_by_mode (items : list (Z * string))
  : PyDict.t string (list Z) :=
  fold_left (fun groups tm => dd_append (snd tm) (fst tm) groups)
            items PyDict.empty.

(** [_resubscribe_all(self)] *)
Definition _resubscribe_all : M unit :=
  s <- get_store ;;
  if negb (PyDict.truthy (subscribed_instruments s)) then ret tt
  else
    let mode_groups := group_by_mode (PyDict.items (subscribed_instruments s)) in
    for_each (PyDict.items mode_groups) (fun mt =>
      let mode := fst mt in
      let tokens := snd mt in
      try_except
        (subscribe (TokenList tokens) (Some mode) true)
        (fun e => logger ERROR "Error resubscribing instruments")).

(** [_on_ticks(self, ws, ticks)] *)
Definition _on_ticks (ticks : list Tick) : M unit :=
  t0 <- datetime_now ;;
  modify_store (set_last_tick_time (Some t0)) ;;
  for_each ticks (fun tick =>
    let token := instrument_token tick in
    t <- datetime_now ;;
    modify_store (fun s =>
      set_tick_data (dd_append token (mkStamped t tick) (tick_data s)) s) ;;
    s <- get_store ;;
    (if (1000 <? length (fst (dd_getitem token (tick_data s))))%nat
     then modify_store (fun s =>
            set_tick_data
              (PyDict.set token
                 (slice_from (-1000) (fst (dd_getitem token (tick_data s))))
                 (tick_data s)) s)
     else ret tt) ;;
    modify_store (fun s =>
      set_latest_ticks (PyDict.set token tick (latest_ticks s)) s)) ;;
  self <- get_self ;;
  dispatch (custom_tick_callbacks self) (TicksArg ticks)
           "Error in custom tick callback" ;;
  logger DEBUG "Received ticks".

(** [_on_connect(self, ws, response)] *)
Definition _on_connect (response : string) : M unit :=
  modify_store (set_connection_status "CONNECTED") ;;
  modify_store (fun s => set_connection_count (connection_count s + 1)%Z s) ;;
  logger INFO "Connected to Kite Ticker" ;;
  s <- get_store ;;
  (if PyDict.truthy (subscribed_instruments s) && (1 <? connection_count s)%Z
   then logger INFO "Resubscribing to instruments after reconnection..." ;;
        _resubscribe_all
   else ret tt) ;;
  self <- get_self ;;
  dispatch (custom_connect_callbacks self) (ConnectArg response)
           "Error in custom connect callback".

(** [_on_close(self, ws, code, reason)] *)
Definition _on_close (code : Z) (reason : string) : M unit :=
  modify_store (set_connection_status "DISCONNECTED") ;;
  logger WARNING "Connection closed" ;;
  self <- get_self ;;
  dispatch (custom_disconnect_callbacks self) (DisconnectArg code reason)
           "Error in custom disconnect callback".

(** [_on_error(self, ws, code, reason)] *)
Definition _on_error (code : Z) (reason : string) : M unit :=
  logger ERROR "Connection error" ;;
  self <- get_self ;;
  dispatch (custom_error_callbacks self) (ErrorArg code reason)
           "Error in custom error callback".

(** [_on_order_update(self, ws, data)] *)
Definition _on_order_update (order : OrderData) : M unit :=
  t <- datetime_now ;;
  modify_store (fun s =>
    set_order_updates (order_updates s ++ [mkStamped t order]) s) ;;
  self <- get_self ;;
  dispatch (custom_order_callbacks self) (OrderArg order)
           "Error in custom order callback" ;;
  logger INFO "Order update received".

(** [_on_reconnect(self, ws, attempts_count)] *)
Definition _on_reconnect (attempts_count : Z) : M unit :=
  logger INFO "Reconnection attempt".

(** [_on_noreconnect(self, ws)] *)
Definition _on_noreconnect : M unit :=
  logger ERROR "Max reconnection attempts reached. Connection failed." ;;
  modify_store (set_connection_status "FAILED").

(** [_connect_worker(self)] *)
Definition _connect_worker : M unit :=
  try_except (kws KwsConnect)
    (fun e => logger ERROR "Connection worker error" ;;
              modify_store (set_connection_status "FAILED")).

(** [connect(self, threaded=True)].  The worker is run where the thread
    is started; its events arrive later, as separate handler calls. *)
Definition connect (threaded : bool) : M unit :=
  try_except
    (modify_store (set_is_running true) ;;
     if threaded
     then _connect_worker ;; logger INFO "Started KiteTicker in threaded mode"
     else _connect_worker)
    (fun e => logger ERROR "Error connecting" ;; raise e).

(** [disconnect(self)] *)
Definition disconnect : M unit :=
  try_except
    (modify_store (set_is_running false) ;;
     kws KwsClose ;;
     logger INFO "Disconnected from Kite Ticker")
    (fun e => logger ERROR "Error disconnecting").

End Methods.

(** ** Registration, queries and housekeeping *)

Definition set_custom_tick_callbacks v (w : Wrapper) : Wrapper :=
  mkWrapper (store w) v (custom_connect_callbacks w)
            (custom_disconnect_callbacks w) (custom_error_callbacks w)
            (custom_order_callbacks w).

Definition set_custom_connect_callbacks v (w : Wrapper) : Wrapper :=
  mkWrapper (store w) (custom_tick_callbacks w) v
            (custom_disconnect_callbacks w) (custom_error_callbacks w)
            (custom_order_callbacks w).

Definition set_custom_disconnect_callbacks v (w : Wrapper) : Wrapper :=
  mkWrapper (store w) (custom_tick_callbacks w) (custom_connect_callbacks w)
            v (custom_error_callbacks w) (custom_order_callbacks w).

Definition set_custom_error_callbacks v (w : Wrapper) : Wrapper :=
  mkWrapper (store w) (custom_tick_callbacks w) (custom_connect_callbacks w)
            (custom_disconnect_callbacks w) v (custom_order_callbacks w).

Definition set_custom_order_callbacks v (w : Wrapper) : Wrapper :=
  mkWrapper (store w) (custom_tick_callbacks w) (custom_connect_callbacks w)
            (custom_disconnect_callbacks w) (custom_error_callbacks w) v.

Definition add_tick_callback (callback : Callback) : M unit :=
  modify_self (fun w =>
    set_custom_tick_callbacks (custom_tick_callbacks w ++ [callback]) w).

Definition add_connect_callback (callback : Callback) : M unit :=
  modify_self (fun w =>
    set_custom_connect_callbacks (custom_connect_callbacks w ++ [callback]) w).

Definition add_disconnect_callback (callback : Callback) : M unit :=
  modify_self (fun w =>
    set_custom_disconnect_callbacks
      (custom_disconnect_callbacks w ++ [callback]) w).

Definition add_error_callback (callback : Callback) : M unit :=
  modify_self (fun w =>
    set_custom_error_callbacks (custom_error_callbacks w ++ [callback]) w).

Definition add_order_callback (callback : Callback) : M unit :=
  modify_self (fun w =>
    set_custom_order_callbacks (custom_order_callbacks w ++ [callback]) w).

(** [get_latest_tick(self, instrument_token)] *)
Definition get_latest_tick (token : Z) : M (option Tick) :=
  s <- get_store ;;
  ret (PyDict.get token (latest_ticks s)).

(** [get_tick_history(self, instrument_token, count=None)] *)
Definition get_tick_history (token : Z) (count : option Z)
  : M (list (Stamped Tick)) :=
  s <- get_store ;;
  let history :=
    match PyDict.get token (tick_data s) with Some h => h | None => [] end in
  match count with
  | Some c => if truthy_int count then ret (slice_from (- c) history)
              else ret history
  | None => ret history
  end.

(** [get_subscribed_instruments(self)] *)
Definition get_subscribed_instruments : M (PyDict.t Z string) :=
  s <- get_store ;;
  ret (subscribed_instruments s).

(** [get_order_updates(self, count=None)] *)
Definition get_order_updates (count : option Z) : M (list (Stamped OrderData)) :=
  s <- get_store ;;
  match count with
  | Some c => if truthy_int count then ret (slice_from (- c) (order_updates s))
              else ret (order_updates s)
  | None => ret (order_updates s)
  end.

(** [clear_data(self)] *)
Definition clear_data : M unit :=
  modify_store (set_tick_data PyDict.empty) ;;
  modify_store (set_latest_ticks PyDict.empty) ;;
  modify_store (set_order_updates []) ;;
  logger INFO "Cleared all stored data".

(** The object as [__init__] leaves it, and a world in which nothing has
    happened yet. *)
Definition init : Wrapper :=
  mkWrapper
    (mkStore PyDict.empty PyDict.empty PyDict.empty [] "DISCONNECTED" 0%Z
             None false)
    [] [] [] [] [].

Definition world0 : World := mkWorld [] 0 [] [].

(** The dict [get_connection_status] returns. *)
Record ConnectionStatus := mkConnectionStatus {
  status_status : string;
  status_connection_count : Z;
  status_last_tick_time : option Z;
  status_subscribed_count : nat;
  status_is_connected : bool
}.

(** [get_connection_status(self)].  It asks the vendor client
    [is_connected()], outside any [try]; [is_connected] is what the vendor
    client answers when the call returns. *)
Definition get_connection_status (env : Env) (is_connected : bool)
  : M ConnectionStatus :=
  s <- get_store ;;
  kws env KwsIsConnected ;;
  ret (mkConnectionStatus (connection_status s) (connection_count s)
         (last_tick_time s) (length (subscribed_instruments s)) is_connected).

(** [__enter__(self)] *)
Definition __enter__ : M Wrapper := get_self.

(** [__exit__(self, exc_type, exc_val, exc_tb)]: it disconnects and
    returns [None], which is falsy: an exception of the [with] body is not
    suppressed. *)
Definition __exit__ (env : Env) : M bool :=
  disconnect env ;; ret false.

(** ** Histories of use

    What can happen to a wrapper: a method call by its owner, or an event
    delivered by the vendor client on its worker.  [export_data] is not
    among the calls: of it only the selection of what to write is
    modelled, not the writing of the file. *)
Inductive Call :=
| CallSubscribe (instruments : Instruments) (mode : option string)
                (resubscribe : bool)
| CallUnsubscribe (instruments : Instruments)
| CallSetMode (mode : string) (instruments : Instruments)
| CallConnect (threaded : bool)
| CallDisconnect
| CallAddTickCallback (callback : Callback)
| CallAddConnectCallback (callback : Callback)
| CallAddDisconnectCallback (callback : Callback)
| CallAddErrorCallback (callback : Callback)
| CallAddOrderCallback (callback : Callback)
| CallGetLatestTick (token : Z)
| CallGetTickHistory (token : Z) (count : option Z)
| CallGetSubscribedInstruments
| CallGetOrderUpdates (count : option Z)
| CallClearData
| EvTicks (ticks : list Tick)
| EvConnect (response : string)
| EvClose (code : Z) (reason : string)
| EvError (code : Z) (reason : string)
| EvOrderUpdate (order : OrderData)
| EvReconnect (attempts_count : Z)
| EvNoReconnect
| CallGetConnectionStatus (is_connected : bool)
| CallEnter
| CallExit.

(** Drop the value a method returns. *)
Definition void {A} (m : M A) : M unit := _ <- m ;; ret tt.

Definition perform (env : Env) (c : Call) : M unit :=
  match c with
  | CallSubscribe i m r => subscribe env i m r
  | CallUnsubscribe i => unsubscribe env i
  | CallSetMode m i => set_mode env m i
  | CallConnect t => connect env t
  | CallDisconnect => disconnect env
  | CallAddTickCallback cb => add_tick_callback cb
  | CallAddConnectCallback cb => add_connect_callback cb
  | CallAddDisconnectCallback cb => add_disconnect_callback cb
  | CallAddErrorCallback cb => add_error_callback cb
  | CallAddOrderCallback cb => add_order_callback cb
  | CallGetLatestTick t => void (get_latest_tick t)
  | CallGetTickHistory t c => void (get_tick_history t c)
  | CallGetSubscribedInstruments => void get_subscribed_instruments
  | CallGetOrderUpdates c => void (get_order_updates c)
  | CallClearData => clear_data
  | EvTicks ticks => _on_ticks env ticks
  | EvConnect r => _on_connect env r
  | EvClose c r => _on_close c r
  | EvError c r => _on_error c r
  | EvOrderUpdate o => _on_order_update env o
  | EvReconnect n => _on_reconnect n
  | EvNoReconnect => _on_noreconnect
  | CallGetConnectionStatus is_connected =>
      void (get_connection_status env is_connected)
  | CallEnter => void __enter__
  | CallExit => void (__exit__ env)
  end.

(** Run a history; a call that raises leaves the object as it is at that
    point, and the next call goes on from there. *)
Definition run_calls (env : Env) (cs : list Call) (s : State) : State :=
  fold_left (fun s c => snd (perform env c s)) cs s.

(** The state a computation ends in, and what it returns. *)
Definition exec {A} (m : M A) (s : State) : State := snd (m s).
Definition result {A} (m : M A) (s : State) : Result A := fst (m s).

(** What a query returns, when it returns. *)
Definition value {A} (m : M A) (s : State) (default : A) : A :=
  match fst (m s) with Ok a => a | Raised _ => default end.

(** ** Sample environments and inputs *)

(** A vendor client whose calls all succeed; the clock counts its
    readings. *)
Definition env_ok : Env := mkEnv (fun _ _ => None) (fun n => Z.of_nat n).

(** A vendor client that rejects every [subscribe]. *)
Definition env_subscribe_fails : Env :=
  mkEnv (fun _ c => match c with KwsSubscribe _ => Some 7 | _ => None end)
        (fun n => Z.of_nat n).

(** A vendor client that rejects every [set_mode]. *)
Definition env_set_mode_fails : Env :=
  mkEnv (fun _ c => match c with KwsSetMode _ _ => Some 8 | _ => None end)
        (fun n => Z.of_nat n).

Definition state0 : State := (init, world0).

Definition tick_2500 : Tick := mkTick 738561 [("last_price", 2500%Z)].

(** An observer that always raises, and one that never does. *)
Definition cb_raising (id : nat) : Callback := mkCallback id (fun _ _ => Some id).
Definition cb_quiet (id : nat) : Callback := mkCallback id (fun _ _ => None).

(** ** Reading the world *)

(** The vendor calls made between two worlds. *)
Definition calls_since (w w' : World) : list KwsCall :=
  skipn (length (kws_calls w)) (kws_calls w').

(** The observer invocations made between two worlds. *)
Definition invocations_since (w w' : World) : list Invocation :=
  skipn (length (invocations w)) (invocations w').

(** The token lists of the [subscribe] calls among some vendor calls. *)
Fixpoint subscribe_args (cs : list KwsCall) : list (list Z) :=
  match cs with
  | [] => []
  | KwsSubscribe l :: cs' => l :: subscribe_args cs'
  | _ :: cs' => subscribe_args cs'
  end.

(** The modes [subscribe] accepts after defaulting. *)
Definition valid_modes : list string := [MODE_LTP; MODE_QUOTE; MODE_FULL].

(** A recorded or requested mode passes the check of [subscribe]. *)
Definition accepted (mode : option string) : bool :=
  str_in (str_or mode MODE_QUOTE) valid_modes.

(** ** Vocabulary of the statements *)

(** [stable R m]: running [m] relates every state to the one it leaves. *)
Definition stable (R : State -> State -> Prop) {A} (m : M A) : Prop :=
  forall s, R s (snd (m s)).

(** [keeps p]: the observation [p] of the state does not change. *)
Definition keeps {B} (p : State -> B) : State -> State -> Prop :=
  fun s s' => p s' = p s.

(** [returns m]: [m] does not raise. *)
Definition returns {A} (m : M A) : Prop :=
  forall s, exists a, fst (m s) = Ok a.

(** A loop whose body only rewrites the data of the object is one
    rewrite: the fold of the bodies. *)
Definition updates (m : M unit) (f : Store -> Store) : Prop :=
  forall s, m s = (Ok tt, (set_store (f (store (fst s))) (fst s), snd s)).

Definition the_tick_data (s : State) := tick_data (store (fst s)).
Definition the_latest_ticks (s : State) := latest_ticks (store (fst s)).
Definition the_subscriptions (s : State) := subscribed_instruments (store (fst s)).

(** A world after some more vendor calls and log lines. *)
Definition world_add (wd : World) (calls : list KwsCall)
           (lines : list (Level * string)) : World :=
  mkWorld (kws_calls wd ++ calls) (clock_reads wd) (invocations wd)
          (log wd ++ lines).

(** The subscription map after a successful [subscribe]. *)
Definition subscribed_after (l : list Z) (m : string) (w : Wrapper) : Wrapper :=
  set_store
    (set_subscribed_instruments
       (fold_left (fun d t => PyDict.set t m d) l
                  (subscribed_instruments (store w)))
       (store w)) w.

Definition subscribe_msg (resubscribe : bool) : string :=
  if resubscribe then "Resubscribed to instruments"
  else "Subscribed to instruments".

(** The data of the object after a successful [unsubscribe]. *)
Definition unsubscribed_after (l : list Z) (w : Wrapper) : Wrapper :=
  set_store
    (fold_left (fun st token =>
       set_latest_ticks (PyDict.pop token (latest_ticks
         (set_subscribed_instruments
            (PyDict.pop token (subscribed_instruments st)) st)))
         (set_subscribed_instruments
            (PyDict.pop token (subscribed_instruments st)) st))
       l (store w)) w.

(** One step of the tracking loop of [set_mode]. *)
Definition remode (mode : string) (token : Z) (d : PyDict.t Z string)
  : PyDict.t Z string :=
  if PyDict.contains token d then PyDict.set token mode d else d.

(** The data of the object after a successful [set_mode]. *)
Definition remoded_after (l : list Z) (mode : string) (w : Wrapper) : Wrapper :=
  set_store
    (set_subscribed_instruments
       (fold_left (fun d t => remode mode t d) l
                  (subscribed_instruments (store w)))
       (store w)) w.

(** [token in l] *)
Definition mem_token (token : Z) (l : list Z) : bool :=
  existsb (Z.eqb token) l.

(** A history call names the token in its token list. *)
Definition names_token (t : Z) (c : Call) : bool :=
  match c with
  | CallSubscribe i _ _ => mem_token t (as_list i)
  | CallUnsubscribe i => mem_token t (as_list i)
  | _ => false
  end.

(** The last call of a history that names the token, if any. *)
Definition last_request (t : Z) (cs : list Call) : option Call :=
  find (names_token t) (rev cs).

(** A [subscribe] with a valid (or omitted) mode, or an [unsubscribe]. *)
Definition subscription_call (c : Call) : Prop :=
  match c with
  | CallSubscribe _ mode _ =>
      mode = None \/ exists m, mode = Some m /\ In m valid_modes
  | CallUnsubscribe _ => True
  | _ => False
  end.

(** The mode a [subscribe] call asks for; QUOTE when omitted. *)
Definition requested_mode (mode : option string) : string :=
  match mode with Some m => m | None => MODE_QUOTE end.

(** Every vendor call succeeds. *)
Definition vendor_never_raises (env : Env) : Prop :=
  forall history c, kws_raises env history c = None.

(** The stored history of a token ([self.tick_data.get(token, [])]). *)
Definition the_history (s : State) (token : Z) : list (Stamped Tick) :=
  match PyDict.get token (the_tick_data s) with Some h => h | None => [] end.

(** What [get_tick_history] makes of a history for a given [count]. *)
Definition history_view {A} (count : option Z) (h : list A) : list A :=
  match count with
  | Some c => if truthy_int count then slice_from (- c) h else h
  | None => h
  end.

(** The last [n] elements of a list. *)
Definition last_n {A} (n : nat) (l : list A) : list A :=
  skipn (length l - n) l.

(** A batch with the clock readings its ticks are stored under: the
    handler reads the clock once for each tick, in order, starting at
    reading number [c]. *)
Fixpoint stamp (env : Env) (c : nat) (ticks : list Tick) : list (Stamped Tick) :=
  match ticks with
  | [] => []
  | t :: ts => mkStamped (now env c) t :: stamp env (S c) ts
  end.

Definition tick_for (token : Z) (t : Tick) : bool :=
  (instrument_token t =? token)%Z.

Definition record_for (token : Z) (r : Stamped Tick) : bool :=
  tick_for token (data r).

(** What the body of the loop of [_on_ticks] does to the data, for one
    tick read at time [t]. *)
Definition record_tick (t : Z) (tick : Tick) (st : Store) : Store :=
  let token := instrument_token tick in
  let d1 := dd_append token (mkStamped t tick) (tick_data st) in
  let l := fst (dd_getitem token d1) in
  let d2 := if (1000 <? length l)%nat
            then PyDict.set token (slice_from (-1000) l) d1 else d1 in
  set_latest_ticks (PyDict.set token tick (latest_ticks st))
                   (set_tick_data d2 st).

(** The ticks delivered by the events of a history, in order. *)
Definition delivered (cs : list Call) : list Tick :=
  flat_map (fun c => match c with EvTicks ticks => ticks | _ => [] end) cs.

Definition is_clear_data (c : Call) : bool :=
  match c with CallClearData => true | _ => false end.

(** The invocation an observer call leaves behind. *)
Definition invocation_of (arg : CbArg) (seen : Store) (cb : Callback)
  : Invocation :=
  mkInvocation (cb_id cb) arg seen.

(** The error lines a fan-out logs: one for each observer that raises. *)
Definition dispatch_log (cbs : list Callback) (seen : Store) (arg : CbArg)
           (msg : string) : list (Level * string) :=
  flat_map (fun cb => match cb_call cb seen arg with
                      | Some _ => [(ERROR, msg)]
                      | None => []
                      end) cbs.

(** The data after [_on_ticks] has recorded a batch, the clock having been
    read [c] times before. *)
Definition ticks_recorded (env : Env) (c : nat) (ticks : list Tick)
           (st : Store) : Store :=
  fold_left (fun st r => record_tick (timestamp r) (data r) st)
            (stamp env (S c) ticks)
            (set_last_tick_time (Some (now env c)) st).

(** No stored history is longer than 1000. *)
Definition bounded (s : State) : Prop :=
  forall k, length (the_history s k) <= 1000.

(** Two states with the same data and the same world: they may differ in
    the observers registered. *)
Definition same_data (s1 s2 : State) : Prop :=
  store (fst s1) = store (fst s2) /\ snd s1 = snd s2.

(** [blind m]: [m] neither reads nor changes the observer lists. *)
Definition blind {A} (m : M A) : Prop :=
  forall s1 s2, same_data s1 s2 ->
    fst (m s1) = fst (m s2) /\ same_data (snd (m s1)) (snd (m s2)).

(** The observer lists of the object. *)
Definition observers (s : State)
  : list Callback * list Callback * list Callback * list Callback
    * list Callback :=
  (custom_tick_callbacks (fst s), custom_connect_callbacks (fst s),
   custom_disconnect_callbacks (fst s), custom_error_callbacks (fst s),
   custom_order_callbacks (fst s)).

(** The same observers, none of which raises. *)
Definition hush (w : Wrapper) : Wrapper :=
  mkWrapper (store w)
    (map (fun cb => cb_quiet (cb_id cb)) (custom_tick_callbacks w))
    (map (fun cb => cb_quiet (cb_id cb)) (custom_connect_callbacks w))
    (map (fun cb => cb_quiet (cb_id cb)) (custom_disconnect_callbacks w))
    (map (fun cb => cb_quiet (cb_id cb)) (custom_error_callbacks w))
    (map (fun cb => cb_quiet (cb_id cb)) (custom_order_callbacks w)).

(** The events the vendor client delivers to observers. *)
Definition worker_event (c : Call) : Prop :=
  match c with
  | EvTicks _ | EvConnect _ | EvClose _ _ | EvError _ _ | EvOrderUpdate _ => True
  | _ => False
  end.

(** The observers an event goes to, and what they are called with. *)
Definition observers_for (c : Call) (w : Wrapper) : list Callback :=
  match c with
  | EvTicks _ => custom_tick_callbacks w
  | EvConnect _ => custom_connect_callbacks w
  | EvClose _ _ => custom_disconnect_callbacks w
  | EvError _ _ => custom_error_callbacks w
  | EvOrderUpdate _ => custom_order_callbacks w
  | _ => []
  end.

Definition arg_for (c : Call) : CbArg :=
  match c with
  | EvConnect r => ConnectArg r
  | EvClose code reason => DisconnectArg code reason
  | EvError code reason => ErrorArg code reason
  | EvOrderUpdate o => OrderArg o
  | EvTicks ticks => TicksArg ticks
  | _ => TicksArg []
  end.

(** The part of [_on_connect] between its bookkeeping and its fan-out. *)
Definition reconnect_part (env : Env) : M unit :=
  s <- get_store ;;
  if PyDict.truthy (subscribed_instruments s) && (1 <? connection_count s)%Z
  then logger INFO "Resubscribing to instruments after reconnection..." ;;
       _resubscribe_all env
  else ret tt.

(** One round of the loop of [_resubscribe_all]. *)
Definition resubscribe_group (env : Env) (mt : string * list Z) : M unit :=
  try_except
    (subscribe env (TokenList (snd mt)) (Some (fst mt)) true)
    (fun e => logger ERROR "Error resubscribing instruments").

(** A mode group whose mode passes the check of [subscribe]. *)
Definition group_accepted (mt : string * list Z) : bool :=
  accepted (Some (fst mt)).

(** The tokens recorded under one mode, in the order of the map. *)
Definition tokens_with_mode (m : string) (items : list (Z * string)) : list Z :=
  map fst (filter (fun tm => (snd tm =? m)%string) items).

(** The data of the object once [_on_connect] has done its bookkeeping. *)
Definition connected (w : Wrapper) : Wrapper :=
  set_store
    (set_connection_count (connection_count (store w) + 1)%Z
       (set_connection_status "CONNECTED" (store w))) w.

(** ** The rest of the class *)

(** The dictionary [export_data] builds before it opens the file: the
    histories of the tokens asked for that have one, or all of them when
    [instrument_tokens] is falsy ([None] or an empty list). *)
Definition export_selection (instrument_tokens : option (list Z)) (s : Store)
  : PyDict.t Z (list (Stamped Tick)) :=
  match instrument_tokens with
  | Some ((_ :: _) as tokens) =>
      fold_left (fun export_data token =>
                   match PyDict.get token (tick_data s) with
                   | Some h => PyDict.set token h export_data
                   | None => export_data
                   end)
                tokens PyDict.empty
  | _ => PyDict.items (tick_data s)
  end.

(** ** Vocabulary of the further statements *)

Definition is_connect_event (c : Call) : bool :=
  match c with EvConnect _ => true | _ => false end.


(** The ticks delivered since the data was last cleared. *)
Definition delivered_since_clear (cs : list Call) : list Tick :=
  fold_left (fun acc c => match c with
                          | EvTicks ticks => acc ++ ticks
                          | CallClearData => []
                          | _ => acc
                          end) cs [].

(** The order updates delivered since the data was last cleared. *)
Definition orders_since_clear (cs : list Call) : list OrderData :=
  fold_left (fun acc c => match c with
                          | EvOrderUpdate o => acc ++ [o]
                          | CallClearData => []
                          | _ => acc
                          end) cs [].

(** The calls that can write to the subscription map. *)
Definition writes_subscriptions (c : Call) : bool :=
  match c with
  | CallSubscribe _ _ _ | CallUnsubscribe _ | CallSetMode _ _ | EvConnect _ => true
  | _ => false
  end.

(** The calls that can reach the vendor client. *)
Definition reaches_vendor (c : Call) : bool :=
  match c with
  | CallSubscribe _ _ _ | CallUnsubscribe _ | CallSetMode _ _
  | CallConnect _ | CallDisconnect | EvConnect _
  | CallGetConnectionStatus _ | CallExit => true
  | _ => false
  end.

(** The observers a history registers for the category of an event. *)
Definition registered_for (e : Call) (cs : list Call) : list Callback :=
  flat_map (fun c =>
    match e, c with
    | EvTicks _, CallAddTickCallback cb => [cb]
    | EvConnect _, CallAddConnectCallback cb => [cb]
    | EvClose _ _, CallAddDisconnectCallback cb => [cb]
    | EvError _ _, CallAddErrorCallback cb => [cb]
    | EvOrderUpdate _, CallAddOrderCallback cb => [cb]
    | _, _ => []
    end) cs.

(** What the data says about the latest tick of a token: the tick is for
    that token and is the newest entry of its history. *)
Definition latest_is_newest (s : State) : Prop :=
  forall k tick,
    PyDict.get k (the_latest_ticks s) = Some tick ->
    instrument_token tick = k
    /\ exists older t, the_history s k = older ++ [mkStamped t tick].

(** * Properties *)

(** ** Dictionaries *)

Section DictFacts.
Context {K V : Type} `{EqKey K}.
Implicit Types (d : PyDict.t K V) (k : K) (v : V).

Lemma keqb_refl k : keqb k k = true.
Proof. destruct (keqb_spec k k); congruence. Qed.

Lemma keqb_neq k k' : k <> k' -> keqb k k' = false.
Proof. intros Hn. destruct (keqb_spec k k'); congruence. Qed.

Lemma dict_get_set k k' v d :
  PyDict.get k' (PyDict.set k v d) =
  if keqb k' k then Some v else PyDict.get k' d.
Proof.
  induction d as [|[k0 v0] d IH]; simpl.
  - reflexivity.
  - destruct (keqb_spec k k0) as [->|Hk]; simpl.
    + destruct (keqb_spec k' k0); reflexivity.
    + destruct (keqb_spec k' k0) as [->|Hk'].
      * rewrite keqb_neq by congruence. reflexivity.
      * exact IH.
Qed.

Lemma dict_get_pop k k' d :
  PyDict.get k' (PyDict.pop k d) =
  if keqb k' k then None else PyDict.get k' d.
Proof.
  unfold PyDict.pop.
  induction d as [|[k0 v0] d IH]; simpl.
  - destruct (keqb k' k); reflexivity.
  - destruct (keqb_spec k k0) as [->|Hk]; simpl.
    + rewrite IH. destruct (keqb_spec k' k0); reflexivity.
    + destruct (keqb_spec k' k0) as [->|Hk'].
      * rewrite keqb_neq by congruence. reflexivity.
      * exact IH.
Qed.

Lemma dict_get_None k d :
  PyDict.get k d = None <-> ~ In k (PyDict.keys d).
Proof.
  induction d as [|[k0 v0] d IH]; simpl.
  - tauto.
  - destruct (keqb_spec k k0) as [->|Hk].
    + split; [discriminate | tauto].
    + rewrite IH. split; [intros Hd [Heq|Hin]; congruence | tauto].
Qed.

Lemma dict_contains_In k d :
  PyDict.contains k d = true <-> In k (PyDict.keys d).
Proof.
  unfold PyDict.contains.
  destruct (PyDict.get k d) eqn:E.
  - split; [intros _ | reflexivity].
    destruct (in_dec (fun a b => reflect_dec _ _ (keqb_spec a b)) k (PyDict.keys d))
      as [Hin|Hn]; [exact Hin|].
    apply dict_get_None in Hn. congruence.
  - apply dict_get_None in E. split; [discriminate | contradiction].
Qed.

Lemma dict_keys_set_in k v d :
  In k (PyDict.keys d) -> PyDict.keys (PyDict.set k v d) = PyDict.keys d.
Proof.
  induction d as [|[k0 v0] d IH]; simpl; [tauto|].
  intros Hin. destruct (keqb_spec k k0) as [->|Hk]; simpl; [reflexivity|].
  f_equal. apply IH. destruct Hin; congruence.
Qed.

Lemma dict_keys_set_notin k v d :
  ~ In k (PyDict.keys d) ->
  PyDict.keys (PyDict.set k v d) = PyDict.keys d ++ [k].
Proof.
  induction d as [|[k0 v0] d IH]; simpl; [reflexivity|].
  intros Hn. destruct (keqb_spec k k0) as [->|Hk]; simpl; [tauto|].
  f_equal. apply IH. tauto.
Qed.

Lemma dict_NoDup_set k v d :
  NoDup (PyDict.keys d) -> NoDup (PyDict.keys (PyDict.set k v d)).
Proof.
  intros Hnd.
  destruct (in_dec (fun a b => reflect_dec _ _ (keqb_spec a b)) k (PyDict.keys d))
    as [Hin|Hn].
  - rewrite dict_keys_set_in by exact Hin. exact Hnd.
  - rewrite dict_keys_set_notin by exact Hn.
    apply NoDup_app; [exact Hnd | repeat constructor; simpl; tauto |].
    intros x Hx [<-|[]]. contradiction.
Qed.

Lemma dict_NoDup_pop k d :
  NoDup (PyDict.keys d) -> NoDup (PyDict.keys (PyDict.pop k d)).
Proof.
  unfold PyDict.pop, PyDict.keys.
  induction d as [|[k0 v0] d IH]; simpl; intros Hnd; [constructor|].
  inversion Hnd as [|? ? Hn Hnd']; subst.
  destruct (keqb k k0); simpl; [apply IH; exact Hnd'|].
  constructor; [|apply IH; exact Hnd'].
  intros Hin. apply Hn. apply in_map_iff in Hin as [[k1 v1] [Heq Hin]].
  apply filter_In in Hin as [Hin _]. simpl in Heq. subst k1.
  apply in_map_iff. exists (k0, v1). split; [reflexivity | exact Hin].
Qed.
End DictFacts.

(** ** Reasoning about computations *)

Lemma set_store_same (w : Wrapper) : set_store (store w) w = w.
Proof. destruct w; reflexivity. Qed.

Section Stable.
Variable R : State -> State -> Prop.
Hypothesis R_refl : forall s, R s s.
Hypothesis R_trans : forall a b c, R a b -> R b c -> R a c.

Lemma stable_ret {A} (a : A) : stable R (ret a).
Proof. intros s. apply R_refl. Qed.

Lemma stable_raise {A} e : stable R (@raise A e).
Proof. intros s. apply R_refl. Qed.

Lemma stable_bind {A B} (m : M A) (k : A -> M B) :
  stable R m -> (forall a, stable R (k a)) -> stable R (bind m k).
Proof.
  intros Hm Hk s. unfold bind. specialize (Hm s).
  destruct (m s) as [[a|e] s']; simpl in *.
  - eapply R_trans; [exact Hm | apply Hk].
  - exact Hm.
Qed.

Lemma stable_try {A} (m : M A) (h : Exn -> M A) :
  stable R m -> (forall e, stable R (h e)) -> stable R (try_except m h).
Proof.
  intros Hm Hh s. unfold try_except. specialize (Hm s).
  destruct (m s) as [[a|e] s']; simpl in *.
  - exact Hm.
  - eapply R_trans; [exact Hm | apply Hh].
Qed.

Lemma stable_for_each {A} (l : list A) (body : A -> M unit) :
  (forall x, stable R (body x)) -> stable R (for_each l body).
Proof.
  intros Hb. induction l as [|x l IH]; simpl.
  - apply stable_ret.
  - apply stable_bind; [apply Hb | intros _; exact IH].
Qed.
End Stable.

Lemma keeps_refl {B} (p : State -> B) s : keeps p s s.
Proof. reflexivity. Qed.

Lemma keeps_trans {B} (p : State -> B) a b c :
  keeps p a b -> keeps p b c -> keeps p a c.
Proof. unfold keeps. congruence. Qed.

Lemma returns_ret {A} (a : A) : returns (ret a).
Proof. intros s. exists a. reflexivity. Qed.

Lemma returns_bind {A B} (m : M A) (k : A -> M B) :
  returns m -> (forall a, returns (k a)) -> returns (bind m k).
Proof.
  intros Hm Hk s. unfold bind. destruct (Hm s) as [a Ha].
  destruct (m s) as [[a'|e] s']; simpl in Ha; [|discriminate].
  apply Hk.
Qed.

Lemma returns_try {A} (m : M A) (h : Exn -> M A) :
  (forall e, returns (h e)) -> returns (try_except m h).
Proof.
  intros Hh s. unfold try_except.
  destruct (m s) as [[a|e] s']; [exists a; reflexivity | apply Hh].
Qed.

Lemma returns_for_each {A} (l : list A) (body : A -> M unit) :
  (forall x, returns (body x)) -> returns (for_each l body).
Proof.
  intros Hb. induction l as [|x l IH]; simpl.
  - apply returns_ret.
  - apply returns_bind; [apply Hb | intros _; exact IH].
Qed.

Lemma returns_unit (m : M unit) s : returns m -> fst (m s) = Ok tt.
Proof. intros Hm. destruct (Hm s) as [[] Ha]. exact Ha. Qed.

(** Taking a computation apart by its combinators. *)
Ltac solve_preorder :=
  solve [ exact (keeps_refl _) | exact (keeps_trans _) ].

Ltac stable_step :=
  first
    [ apply stable_ret; solve_preorder
    | apply stable_raise; solve_preorder
    | apply (stable_bind _ (keeps_trans _)); [| intros ?]
    | apply (stable_try _ (keeps_trans _)); [| intros ?]
    | apply (stable_for_each _ (keeps_refl _) (keeps_trans _)); intros ?
    | match goal with
      | |- stable _ (if ?b then _ else _) => destruct b
      | |- stable _ (match ?c with Some _ => _ | None => _ end) => destruct c
      end
    | (intros ?; reflexivity)
    | (intros ?; unfold kws, call; simpl;
       repeat match goal with
              | |- context [match ?x with Some _ => _ | None => _ end] =>
                  destruct x
              end; reflexivity) ].

(** A loop whose body only rewrites the data of the object is one
    rewrite: the fold of the bodies. *)
Lemma updates_modify_store f : updates (modify_store f) f.
Proof. intros s. reflexivity. Qed.

Lemma updates_seq m1 m2 f1 f2 :
  updates m1 f1 -> updates m2 f2 ->
  updates (m1 ;; m2) (fun st => f2 (f1 st)).
Proof.
  intros H1 H2 s. unfold bind. rewrite H1, H2. simpl.
  destruct s as [w wd]; destruct w; reflexivity.
Qed.

Lemma updates_for_each {A} (l : list A) body (f : A -> Store -> Store) :
  (forall x, updates (body x) (f x)) ->
  updates (for_each l body) (fun st => fold_left (fun st x => f x st) l st).
Proof.
  intros Hb. induction l as [|x l IH]; intros s; simpl.
  - unfold ret. rewrite set_store_same. destruct s; reflexivity.
  - unfold bind. rewrite Hb, IH. simpl.
    destruct s as [w wd]; destruct w; reflexivity.
Qed.

(** ** The subscription methods, run *)

Lemma set_subscribed_same st :
  set_subscribed_instruments (subscribed_instruments st) st = st.
Proof. destruct st; reflexivity. Qed.

Lemma fold_set_subscribed {A} (f : A -> PyDict.t Z string -> PyDict.t Z string)
      (l : list A) st :
  fold_left (fun st x =>
      set_subscribed_instruments (f x (subscribed_instruments st)) st) l st =
  set_subscribed_instruments
    (fold_left (fun d x => f x d) l (subscribed_instruments st)) st.
Proof.
  revert st. induction l as [|x l IH]; intros st; simpl.
  - symmetry. apply set_subscribed_same.
  - rewrite IH. destruct st; reflexivity.
Qed.

Lemma subscribe_loop l m w wd :
  for_each l (fun token =>
      modify_store (fun s =>
        set_subscribed_instruments
          (PyDict.set token m (subscribed_instruments s)) s)) (w, wd) =
  (Ok tt, (subscribed_after l m w, wd)).
Proof.
  rewrite (updates_for_each l _
             (fun token s => set_subscribed_instruments
                (PyDict.set token m (subscribed_instruments s)) s)).
  - simpl. rewrite (fold_set_subscribed (fun t d => PyDict.set t m d)).
    reflexivity.
  - intros x. apply updates_modify_store.
Qed.

Lemma subscribe_run env i mode r w wd :
  accepted mode = true ->
  let l := as_list i in
  let m := str_or mode MODE_QUOTE in
  subscribe env i mode r (w, wd) =
  match kws_raises env (kws_calls wd) (KwsSubscribe l) with
  | Some tag =>
      (Raised (Other tag),
       (w, world_add wd [KwsSubscribe l]
                     [(ERROR, "Error subscribing to instruments")]))
  | None =>
      if (m =? MODE_QUOTE)%string
      then (Ok tt, (subscribed_after l m w,
                    world_add wd [KwsSubscribe l] [(INFO, subscribe_msg r)]))
      else
        match kws_raises env (kws_calls wd ++ [KwsSubscribe l]) (KwsSetMode m l) with
        | Some tag =>
            (Raised (Other tag),
             (w, world_add wd [KwsSubscribe l; KwsSetMode m l]
                           [(ERROR, "Error subscribing to instruments")]))
        | None =>
            (Ok tt, (subscribed_after l m w,
                     world_add wd [KwsSubscribe l; KwsSetMode m l]
                               [(INFO, subscribe_msg r)]))
        end
  end.
Proof.
  intros Hacc l m. unfold subscribe. fold l. fold m.
  unfold accepted, valid_modes in Hacc. fold m in Hacc. rewrite Hacc.
  cbn [negb]. unfold try_except, bind at 1. unfold kws at 1. cbn [fst snd kws_calls].
  destruct (kws_raises env (kws_calls wd) (KwsSubscribe l)) as [tag|].
  - reflexivity.
  - unfold bind at 1.
    destruct (m =? MODE_QUOTE)%string; cbn [negb].
    + unfold ret at 1. unfold bind at 1. rewrite subscribe_loop.
      reflexivity.
    + unfold kws. cbn [fst snd kws_calls].
      destruct (kws_raises env (kws_calls wd ++ [KwsSubscribe l]) (KwsSetMode m l)).
      * unfold world_add. cbn. rewrite <- app_assoc. reflexivity.
      * unfold bind at 1. rewrite subscribe_loop. unfold world_add. cbn.
        rewrite <- app_assoc. reflexivity.
Qed.

Lemma subscribe_rejects env i mode r s :
  accepted mode = false ->
  subscribe env i mode r s = (Raised (InvalidMode valid_modes), s).
Proof.
  intros Hacc. unfold subscribe.
  unfold accepted, valid_modes in Hacc. rewrite Hacc. reflexivity.
Qed.

Lemma str_in_In x l : str_in x l = true <-> In x l.
Proof.
  unfold str_in. rewrite existsb_exists. split.
  - intros [y [Hin Heq]]. apply String.eqb_eq in Heq. subst. exact Hin.
  - intros Hin. exists x. split; [exact Hin | apply String.eqb_refl].
Qed.

Lemma accepted_cases mode :
  accepted mode = true <->
  mode = None \/ mode = Some "" \/ exists m, mode = Some m /\ In m valid_modes.
Proof.
  unfold accepted. destruct mode as [m|]; simpl str_or.
  - destruct (String.eqb_spec m "") as [->|Hne].
    + split; [intros _; right; left; reflexivity | intros _; reflexivity].
    + rewrite str_in_In. split.
      * intros Hin. right; right. exists m. split; [reflexivity | exact Hin].
      * intros [Hd|[Hd|[m' [Heq Hin]]]]; try discriminate.
        -- injection Hd as ->. contradiction.
        -- injection Heq as ->. exact Hin.
  - split; [intros _; left; reflexivity | intros _; reflexivity].
Qed.

Lemma subscribe_result_accepted env i mode r s :
  accepted mode = true ->
  forall vm, result (subscribe env i mode r) s <> Raised (InvalidMode vm).
Proof.
  intros Hacc vm. destruct s as [w wd]. unfold result.
  rewrite (subscribe_run env i mode r w wd Hacc). cbv zeta.
  destruct (kws_raises env (kws_calls wd) (KwsSubscribe (as_list i)));
    [simpl; discriminate|].
  destruct (str_or mode MODE_QUOTE =? MODE_QUOTE)%string; [simpl; discriminate|].
  destruct (kws_raises env _ (KwsSetMode _ _)); simpl; discriminate.
Qed.

(** ** The mode check of [subscribe] *)

(** C5, as amended: a call [subscribe(tokens, mode)] with a non-empty mode
    outside {LTP, QUOTE, FULL} raises the invalid-mode error and changes
    nothing at all (no vendor call, no token recorded); with a mode in the
    set, or with the mode omitted or empty (both default to QUOTE), the
    invalid-mode error is not raised. *)
Theorem subscribe_mode_check env i mode r s :
  (forall m, mode = Some m -> m <> "" -> ~ In m valid_modes ->
     subscribe env i mode r s = (Raised (InvalidMode valid_modes), s))
  /\ (mode = None \/ mode = Some "" \/
      (exists m, mode = Some m /\ In m valid_modes) ->
      forall vm, result (subscribe env i mode r) s <> Raised (InvalidMode vm)).
Proof.
  split.
  - intros m -> Hne Hnin. apply subscribe_rejects.
    destruct (accepted (Some m)) eqn:E; [|reflexivity].
    apply accepted_cases in E as [Hd|[Hd|[m' [Heq Hin]]]]; try discriminate.
    + injection Hd as ->. contradiction.
    + injection Heq as ->. contradiction.
  - intros Hc. apply subscribe_result_accepted. apply accepted_cases. exact Hc.
Qed.

Lemma subscribe_mode_check_witness :
  subscribe env_ok (TokenList [100%Z]) (Some "depth") false state0 =
    (Raised (InvalidMode valid_modes), state0)
  /\ result (subscribe env_ok (TokenList [100%Z]) (Some "full") false) state0
     <> Raised (InvalidMode valid_modes).
Proof.
  split.
  - apply (proj1 (subscribe_mode_check env_ok (TokenList [100%Z])
                    (Some "depth") false state0) "depth").
    + reflexivity.
    + discriminate.
    + simpl. intros [H|[H|[H|[]]]]; discriminate.
  - apply (proj2 (subscribe_mode_check env_ok (TokenList [100%Z])
                    (Some "full") false state0)).
    right; right. exists "full". split; [reflexivity | simpl; tauto].
Defined.

(** C5 as stated fails: the empty string is a mode outside the set, and
    the call is not rejected; it subscribes in QUOTE mode. *)
Lemma subscribe_empty_mode_not_rejected :
  ~ In "" valid_modes
  /\ result (subscribe env_ok (TokenList [100%Z]) (Some "") false) state0 = Ok tt
  /\ PyDict.get 100%Z
       (the_subscriptions
          (exec (subscribe env_ok (TokenList [100%Z]) (Some "") false) state0))
     = Some MODE_QUOTE.
Proof.
  split; [|split].
  - simpl. intros [H|[H|[H|[]]]]; discriminate.
  - reflexivity.
  - reflexivity.
Qed.

(** ** A vendor failure inside [subscribe] *)

(** C10: when [subscribe] is called with an accepted mode and the vendor's
    [subscribe] raises, or it returns and the vendor's [set_mode] (issued
    for a mode other than QUOTE) raises, the exception is re-raised to the
    caller and the object is exactly what it was: no token recorded, latest
    ticks and histories untouched. *)
Theorem subscribe_vendor_failure env i mode r s tag :
  accepted mode = true ->
  kws_raises env (kws_calls (snd s)) (KwsSubscribe (as_list i)) = Some tag
  \/ (kws_raises env (kws_calls (snd s)) (KwsSubscribe (as_list i)) = None
      /\ str_or mode MODE_QUOTE <> MODE_QUOTE
      /\ kws_raises env (kws_calls (snd s) ++ [KwsSubscribe (as_list i)])
                    (KwsSetMode (str_or mode MODE_QUOTE) (as_list i)) = Some tag) ->
  result (subscribe env i mode r) s = Raised (Other tag)
  /\ fst (exec (subscribe env i mode r) s) = fst s.
Proof.
  intros Hacc Hfail. destruct s as [w wd]. unfold result, exec.
  rewrite (subscribe_run env i mode r w wd Hacc). cbv zeta.
  cbn [fst snd] in Hfail.
  destruct Hfail as [Hs | (Hs & Hm & Hsm)]; rewrite Hs.
  - split; reflexivity.
  - apply String.eqb_neq in Hm. rewrite Hm, Hsm. split; reflexivity.
Qed.

Lemma subscribe_vendor_failure_witness :
  (result (subscribe env_subscribe_fails (TokenList [738561%Z; 5633%Z])
                     (Some MODE_FULL) false) state0 = Raised (Other 7)
   /\ fst (exec (subscribe env_subscribe_fails (TokenList [738561%Z; 5633%Z])
                           (Some MODE_FULL) false) state0) = init)
  /\ (result (subscribe env_set_mode_fails (TokenList [738561%Z; 5633%Z])
                        (Some MODE_FULL) false) state0 = Raised (Other 8)
      /\ fst (exec (subscribe env_set_mode_fails (TokenList [738561%Z; 5633%Z])
                              (Some MODE_FULL) false) state0) = init).
Proof.
  split.
  - apply (subscribe_vendor_failure env_subscribe_fails
             (TokenList [738561%Z; 5633%Z]) (Some MODE_FULL) false state0 7).
    + reflexivity.
    + left. reflexivity.
  - apply (subscribe_vendor_failure env_set_mode_fails
             (TokenList [738561%Z; 5633%Z]) (Some MODE_FULL) false state0 8).
    + reflexivity.
    + right. split; [reflexivity | split; [discriminate | reflexivity]].
Defined.

Lemma unsubscribe_run env i w wd :
  let l := as_list i in
  unsubscribe env i (w, wd) =
  match kws_raises env (kws_calls wd) (KwsUnsubscribe l) with
  | Some tag =>
      (Raised (Other tag),
       (w, world_add wd [KwsUnsubscribe l]
                     [(ERROR, "Error unsubscribing from instruments")]))
  | None =>
      (Ok tt, (unsubscribed_after l w,
               world_add wd [KwsUnsubscribe l]
                         [(INFO, "Unsubscribed from instruments")]))
  end.
Proof.
  intros l. unfold unsubscribe. fold l.
  unfold try_except, bind at 1. unfold kws at 1. cbn [fst snd kws_calls].
  destruct (kws_raises env (kws_calls wd) (KwsUnsubscribe l)) as [tag|].
  - reflexivity.
  - unfold bind at 1.
    rewrite (updates_for_each l _
      (fun token st =>
         set_latest_ticks (PyDict.pop token (latest_ticks
           (set_subscribed_instruments
              (PyDict.pop token (subscribed_instruments st)) st)))
           (set_subscribed_instruments
              (PyDict.pop token (subscribed_instruments st)) st))).
    + reflexivity.
    + intros x.
      apply (updates_seq _ _
               (fun s => set_subscribed_instruments
                           (PyDict.pop x (subscribed_instruments s)) s)
               (fun s => set_latest_ticks (PyDict.pop x (latest_ticks s)) s));
        apply updates_modify_store.
Qed.

Lemma set_mode_run env mode i w wd :
  let l := as_list i in
  set_mode env mode i (w, wd) =
  match kws_raises env (kws_calls wd) (KwsSetMode mode l) with
  | Some tag =>
      (Raised (Other tag),
       (w, world_add wd [KwsSetMode mode l] [(ERROR, "Error setting mode")]))
  | None =>
      (Ok tt, (remoded_after l mode w,
               world_add wd [KwsSetMode mode l]
                         [(INFO, "Set mode for instruments")]))
  end.
Proof.
  intros l. unfold set_mode. fold l.
  unfold try_except, bind at 1. unfold kws at 1. cbn [fst snd kws_calls].
  destruct (kws_raises env (kws_calls wd) (KwsSetMode mode l)) as [tag|].
  - reflexivity.
  - unfold bind at 1.
    rewrite (updates_for_each l _
      (fun token st =>
         set_subscribed_instruments
           (remode mode token (subscribed_instruments st)) st)).
    + cbn [fst snd].
      rewrite (fold_set_subscribed (fun t d => remode mode t d)).
      reflexivity.
    + intros x s. unfold bind, get_store, remode. cbn [fst snd].
      destruct (PyDict.contains x (subscribed_instruments (store (fst s)))).
      * reflexivity.
      * unfold ret. rewrite set_subscribed_same, set_store_same.
        destruct s; reflexivity.
Qed.

(** The three maps after the loop of [unsubscribe]. *)
Lemma unsubscribed_fields l st :
  let st' := fold_left (fun st token =>
       set_latest_ticks (PyDict.pop token (latest_ticks
         (set_subscribed_instruments
            (PyDict.pop token (subscribed_instruments st)) st)))
         (set_subscribed_instruments
            (PyDict.pop token (subscribed_instruments st)) st)) l st in
  tick_data st' = tick_data st
  /\ subscribed_instruments st' =
     fold_left (fun d t => PyDict.pop t d) l (subscribed_instruments st)
  /\ latest_ticks st' =
     fold_left (fun d t => PyDict.pop t d) l (latest_ticks st)
  /\ order_updates st' = order_updates st
  /\ connection_status st' = connection_status st
  /\ connection_count st' = connection_count st
  /\ last_tick_time st' = last_tick_time st.
Proof.
  revert st. induction l as [|x l IH]; intros st; cbn [fold_left].
  - repeat split.
  - specialize (IH (set_latest_ticks (PyDict.pop x (latest_ticks
         (set_subscribed_instruments
            (PyDict.pop x (subscribed_instruments st)) st)))
         (set_subscribed_instruments
            (PyDict.pop x (subscribed_instruments st)) st))).
    cbv zeta in IH. exact IH.
Qed.

Lemma mem_token_In t l : mem_token t l = true <-> In t l.
Proof.
  unfold mem_token. rewrite existsb_exists. split.
  - intros [y [Hin Heq]]. apply Z.eqb_eq in Heq. subst. exact Hin.
  - intros Hin. exists t. split; [exact Hin | apply Z.eqb_refl].
Qed.

Lemma get_fold_pop {V} (l : list Z) (d : PyDict.t Z V) t :
  PyDict.get t (fold_left (fun d t => PyDict.pop t d) l d) =
  if mem_token t l then None else PyDict.get t d.
Proof.
  revert d. induction l as [|x l IH]; intros d; simpl.
  - reflexivity.
  - rewrite IH, dict_get_pop. simpl.
    destruct (mem_token t l); [destruct (t =? x)%Z; reflexivity|].
    rewrite orb_false_r. reflexivity.
Qed.

Lemma get_fold_set {V} (l : list Z) (v : V) (d : PyDict.t Z V) t :
  PyDict.get t (fold_left (fun d t => PyDict.set t v d) l d) =
  if mem_token t l then Some v else PyDict.get t d.
Proof.
  revert d. induction l as [|x l IH]; intros d; simpl.
  - reflexivity.
  - rewrite IH, dict_get_set. simpl.
    destruct (mem_token t l); [destruct (t =? x)%Z; reflexivity|].
    rewrite orb_false_r. reflexivity.
Qed.

Lemma keys_remode mode t (d : PyDict.t Z string) :
  PyDict.keys (remode mode t d) = PyDict.keys d.
Proof.
  unfold remode. destruct (PyDict.contains t d) eqn:E; [|reflexivity].
  apply dict_keys_set_in. apply dict_contains_In. exact E.
Qed.

Lemma keys_fold_remode mode l (d : PyDict.t Z string) :
  PyDict.keys (fold_left (fun d t => remode mode t d) l d) = PyDict.keys d.
Proof.
  revert d. induction l as [|x l IH]; intros d; simpl; [reflexivity|].
  rewrite IH. apply keys_remode.
Qed.

Lemma contains_remode mode x t (d : PyDict.t Z string) :
  PyDict.contains t (remode mode x d) = PyDict.contains t d.
Proof.
  unfold remode. destruct (PyDict.contains x d) eqn:E; [|reflexivity].
  unfold PyDict.contains in *. rewrite dict_get_set. simpl.
  destruct (Z.eqb_spec t x) as [->|]; [|reflexivity].
  destruct (PyDict.get x d); [reflexivity | discriminate].
Qed.

Lemma get_fold_remode mode l (d : PyDict.t Z string) t :
  PyDict.get t (fold_left (fun d t => remode mode t d) l d) =
  if mem_token t l && PyDict.contains t d then Some mode else PyDict.get t d.
Proof.
  revert d. induction l as [|x l IH]; intros d; simpl.
  - reflexivity.
  - rewrite IH, contains_remode.
    destruct (PyDict.contains t d) eqn:Ec.
    + rewrite !andb_true_r. destruct (mem_token t l).
      * rewrite orb_true_r. reflexivity.
      * rewrite orb_false_r. unfold remode.
        destruct (Z.eqb_spec t x) as [->|Hne].
        -- rewrite Ec, dict_get_set. simpl. rewrite Z.eqb_refl. reflexivity.
        -- destruct (PyDict.contains x d); [|reflexivity].
           rewrite dict_get_set. simpl.
           destruct (Z.eqb_spec t x); [contradiction | reflexivity].
    + rewrite !andb_false_r. unfold remode.
      destruct (PyDict.contains x d) eqn:Ex; [|reflexivity].
      rewrite dict_get_set. simpl.
      destruct (Z.eqb_spec t x) as [->|]; [congruence | reflexivity].
Qed.

(** ** [unsubscribe] and [set_mode] *)

Lemma unsubscribe_ok_state env i s :
  result (unsubscribe env i) s = Ok tt ->
  exec (unsubscribe env i) s =
  (unsubscribed_after (as_list i) (fst s),
   world_add (snd s) [KwsUnsubscribe (as_list i)]
             [(INFO, "Unsubscribed from instruments")]).
Proof.
  destruct s as [w wd]. unfold result, exec.
  rewrite (unsubscribe_run env i w wd). cbv zeta.
  destruct (kws_raises env (kws_calls wd) (KwsUnsubscribe (as_list i)));
    [discriminate | reflexivity].
Qed.

Lemma get_latest_tick_run t s :
  get_latest_tick t s = (Ok (PyDict.get t (the_latest_ticks s)), s).
Proof. reflexivity. Qed.

Lemma get_tick_history_run t count s :
  get_tick_history t count s = (Ok (history_view count (the_history s t)), s).
Proof.
  unfold get_tick_history, bind, get_store, history_view, the_history,
    the_tick_data.
  destruct count as [c|]; [|reflexivity].
  destruct (truthy_int (Some c)); reflexivity.
Qed.

Lemma unsubscribed_state_fields l w wd :
  the_tick_data (unsubscribed_after l w, wd) = tick_data (store w)
  /\ the_subscriptions (unsubscribed_after l w, wd) =
     fold_left (fun d t => PyDict.pop t d) l (subscribed_instruments (store w))
  /\ the_latest_ticks (unsubscribed_after l w, wd) =
     fold_left (fun d t => PyDict.pop t d) l (latest_ticks (store w)).
Proof.
  destruct (unsubscribed_fields l (store w)) as (Htd & Hsub & Hlat & _).
  unfold the_tick_data, the_subscriptions, the_latest_ticks, unsubscribed_after.
  cbn [fst store set_store]. auto.
Qed.

(** C7: after [unsubscribe(tokens)] has returned, for each of the tokens
    [get_latest_tick] gives nothing and the subscription map has no entry;
    [get_tick_history] answers for every token (these included) exactly as
    before, and the latest ticks of the tokens not named are unchanged. *)
Theorem unsubscribe_keeps_history env i s :
  result (unsubscribe env i) s = Ok tt ->
  (forall t, In t (as_list i) ->
     result (get_latest_tick t) (exec (unsubscribe env i) s) = Ok None
     /\ PyDict.get t (the_subscriptions (exec (unsubscribe env i) s)) = None)
  /\ (forall t count,
        result (get_tick_history t count) (exec (unsubscribe env i) s) =
        result (get_tick_history t count) s)
  /\ (forall t, ~ In t (as_list i) ->
        result (get_latest_tick t) (exec (unsubscribe env i) s) =
        result (get_latest_tick t) s).
Proof.
  intros Hok. rewrite (unsubscribe_ok_state env i s Hok).
  destruct (unsubscribed_state_fields (as_list i) (fst s)
              (world_add (snd s) [KwsUnsubscribe (as_list i)]
                 [(INFO, "Unsubscribed from instruments")]))
    as (Htd & Hsub & Hlat).
  split; [|split].
  - intros t Hin. apply mem_token_In in Hin.
    unfold result. rewrite get_latest_tick_run. cbn [fst].
    rewrite Hlat, Hsub, !get_fold_pop, Hin. split; reflexivity.
  - intros t count. unfold result. rewrite !get_tick_history_run. cbn [fst].
    unfold the_history. rewrite Htd. reflexivity.
  - intros t Hnin.
    assert (Hm : mem_token t (as_list i) = false).
    { destruct (mem_token t (as_list i)) eqn:E; [|reflexivity].
      apply mem_token_In in E. contradiction. }
    unfold result. rewrite !get_latest_tick_run. cbn [fst].
    rewrite Hlat, get_fold_pop, Hm. reflexivity.
Qed.

Lemma unsubscribe_keeps_history_witness :
  let s := run_calls env_ok
             [CallSubscribe (TokenList [738561%Z; 5633%Z]) (Some MODE_FULL) false;
              EvTicks [tick_2500; mkTick 5633 [("last_price", 1900%Z)]]]
             state0 in
  let s' := exec (unsubscribe env_ok (TokenList [738561%Z])) s in
  (result (get_latest_tick 738561) s' = Ok None
   /\ PyDict.get 738561%Z (the_subscriptions s') = None)
  /\ result (get_tick_history 738561 None) s' =
     Ok [mkStamped 1%Z tick_2500]
  /\ result (get_latest_tick 5633) s' =
     Ok (Some (mkTick 5633 [("last_price", 1900%Z)])).
Proof.
  pose proof (unsubscribe_keeps_history env_ok (TokenList [738561%Z])
    (run_calls env_ok
       [CallSubscribe (TokenList [738561%Z; 5633%Z]) (Some MODE_FULL) false;
        EvTicks [tick_2500; mkTick 5633 [("last_price", 1900%Z)]]]
       state0) eq_refl) as (H1 & H2 & H3).
  cbv zeta. split; [|split].
  - apply H1. simpl. left. reflexivity.
  - rewrite H2. reflexivity.
  - rewrite H3; [reflexivity|]. simpl. intros [H|[]]. discriminate.
Defined.

Lemma fold_remode_absent mode l (d : PyDict.t Z string) :
  (forall t, In t l -> PyDict.contains t d = false) ->
  fold_left (fun d t => remode mode t d) l d = d.
Proof.
  induction l as [|x l IH]; intros Habs; simpl; [reflexivity|].
  unfold remode at 2. rewrite (Habs x) by (left; reflexivity).
  apply IH. intros t Hin. apply Habs. right. exact Hin.
Qed.

(** C8: [set_mode(mode, tokens)] raises nothing of its own: it fails
    exactly when the vendor's [set_mode] does.  Whatever happens, the
    subscription map keeps its keys, so a token that was absent stays
    absent.  When the call returns, the named tokens that were subscribed
    have the new mode and every other entry is as before; if none of the
    named tokens was subscribed the map is unchanged, as after
    [subscribe([100], QUOTE)] and [set_mode(FULL, [999])]. *)
Theorem set_mode_updates_subscribed_only env mode i s :
  result (set_mode env mode i) s =
    match kws_raises env (kws_calls (snd s)) (KwsSetMode mode (as_list i)) with
    | None => Ok tt
    | Some tag => Raised (Other tag)
    end
  /\ PyDict.keys (the_subscriptions (exec (set_mode env mode i) s)) =
     PyDict.keys (the_subscriptions s)
  /\ (result (set_mode env mode i) s = Ok tt ->
      forall t,
        PyDict.get t (the_subscriptions (exec (set_mode env mode i) s)) =
        if mem_token t (as_list i) && PyDict.contains t (the_subscriptions s)
        then Some mode else PyDict.get t (the_subscriptions s))
  /\ ((forall t, In t (as_list i) ->
         PyDict.contains t (the_subscriptions s) = false) ->
      the_subscriptions (exec (set_mode env mode i) s) = the_subscriptions s)
  /\ (let s1 := exec (subscribe env (TokenList [100%Z]) (Some MODE_QUOTE) false)
                     state0 in
      the_subscriptions (exec (set_mode env MODE_FULL (TokenList [999%Z])) s1)
      = the_subscriptions s1).
Proof.
  assert (Hnoop : forall env mode i s,
     (forall t, In t (as_list i) ->
         PyDict.contains t (the_subscriptions s) = false) ->
      the_subscriptions (exec (set_mode env mode i) s) = the_subscriptions s).
  { clear. intros env mode i [w wd] Habs. unfold exec.
    rewrite (set_mode_run env mode i w wd). cbv zeta.
    destruct (kws_raises env (kws_calls wd) (KwsSetMode mode (as_list i)));
      [reflexivity|].
    unfold the_subscriptions, remoded_after. cbn.
    apply fold_remode_absent. exact Habs. }
  destruct s as [w wd]. unfold result, exec.
  rewrite (set_mode_run env mode i w wd). cbv zeta. cbn [snd].
  split; [|split; [|split; [|split]]].
  - destruct (kws_raises env (kws_calls wd) (KwsSetMode mode (as_list i)));
      reflexivity.
  - destruct (kws_raises env (kws_calls wd) (KwsSetMode mode (as_list i)));
      [reflexivity|].
    unfold the_subscriptions, remoded_after. cbn. apply keys_fold_remode.
  - destruct (kws_raises env (kws_calls wd) (KwsSetMode mode (as_list i)));
      [discriminate|].
    intros _ t. unfold the_subscriptions, remoded_after. cbn.
    apply get_fold_remode.
  - intros Habs.
    specialize (Hnoop env mode i (w, wd) Habs). unfold exec in Hnoop.
    rewrite (set_mode_run env mode i w wd) in Hnoop. exact Hnoop.
  - cbv zeta. apply Hnoop. intros t [<-|[]].
    unfold exec, state0.
    rewrite (subscribe_run env (TokenList [100%Z]) (Some MODE_QUOTE) false
               init world0 eq_refl).
    cbv zeta.
    destruct (kws_raises env (kws_calls world0) _); reflexivity.
Qed.

Lemma set_mode_updates_subscribed_only_witness :
  let s1 := run_calls env_ok
              [CallSubscribe (TokenList [100%Z; 200%Z]) (Some MODE_QUOTE) false]
              state0 in
  let s2 := exec (set_mode env_ok MODE_FULL (TokenList [200%Z; 999%Z])) s1 in
  result (set_mode env_ok MODE_FULL (TokenList [200%Z; 999%Z])) s1 = Ok tt
  /\ PyDict.get 200%Z (the_subscriptions s2) = Some MODE_FULL
  /\ PyDict.get 100%Z (the_subscriptions s2) = Some MODE_QUOTE
  /\ PyDict.get 999%Z (the_subscriptions s2) = None
  /\ the_subscriptions
       (exec (set_mode env_ok MODE_FULL (TokenList [999%Z])) s1) =
     the_subscriptions s1.
Proof.
  pose proof (set_mode_updates_subscribed_only env_ok MODE_FULL
    (TokenList [200%Z; 999%Z])
    (run_calls env_ok
       [CallSubscribe (TokenList [100%Z; 200%Z]) (Some MODE_QUOTE) false]
       state0)) as (H1 & _ & H3 & _ & _).
  pose proof (set_mode_updates_subscribed_only env_ok MODE_FULL
    (TokenList [999%Z])
    (run_calls env_ok
       [CallSubscribe (TokenList [100%Z; 200%Z]) (Some MODE_QUOTE) false]
       state0)) as (_ & _ & _ & H4 & _).
  cbv zeta. split; [exact H1|].
  specialize (H3 eq_refl).
  split; [rewrite H3; reflexivity|].
  split; [rewrite H3; reflexivity|].
  split; [rewrite H3; reflexivity|].
  apply H4. intros t [<-|[]]. reflexivity.
Defined.

(** ** Histories of [subscribe] and [unsubscribe] *)

Lemma run_calls_snoc env cs c s :
  run_calls env (cs ++ [c]) s = exec (perform env c) (run_calls env cs s).
Proof. unfold run_calls. rewrite fold_left_app. reflexivity. Qed.

Lemma last_request_snoc t cs c :
  last_request t (cs ++ [c]) =
  if names_token t c then Some c else last_request t cs.
Proof. unfold last_request. rewrite rev_app_distr. reflexivity. Qed.

Lemma NoDup_fold_set {V} (l : list Z) (v : V) (d : PyDict.t Z V) :
  NoDup (PyDict.keys d) ->
  NoDup (PyDict.keys (fold_left (fun d t => PyDict.set t v d) l d)).
Proof.
  revert d. induction l as [|x l IH]; intros d Hnd; simpl; [exact Hnd|].
  apply IH. apply dict_NoDup_set. exact Hnd.
Qed.

Lemma NoDup_fold_pop {V} (l : list Z) (d : PyDict.t Z V) :
  NoDup (PyDict.keys d) ->
  NoDup (PyDict.keys (fold_left (fun d t => PyDict.pop t d) l d)).
Proof.
  revert d. induction l as [|x l IH]; intros d Hnd; simpl; [exact Hnd|].
  apply IH. apply dict_NoDup_pop. exact Hnd.
Qed.

Lemma valid_mode_accepted mode :
  mode = None \/ (exists m, mode = Some m /\ In m valid_modes) ->
  accepted mode = true /\ str_or mode MODE_QUOTE = requested_mode mode.
Proof.
  intros [->|[m [-> Hin]]].
  - split; reflexivity.
  - split.
    + apply accepted_cases. right; right. exists m. split; [reflexivity|exact Hin].
    + simpl in Hin. destruct Hin as [<-|[<-|[<-|[]]]]; reflexivity.
Qed.

(** One call of a subscribe/unsubscribe history, the vendor willing. *)
Lemma subscription_call_step env c s :
  vendor_never_raises env ->
  subscription_call c ->
  (forall t,
     PyDict.get t (the_subscriptions (exec (perform env c) s)) =
     if names_token t c
     then match c with
          | CallSubscribe _ mode _ => Some (requested_mode mode)
          | _ => None
          end
     else PyDict.get t (the_subscriptions s))
  /\ (NoDup (PyDict.keys (the_subscriptions s)) ->
      NoDup (PyDict.keys (the_subscriptions (exec (perform env c) s)))).
Proof.
  intros Hv Hc. destruct s as [w wd].
  destruct c as [i mode r|i| | | | | | | | | | | | | | | | | | | | | | | ];
    try contradiction; unfold exec; cbn [perform names_token].
  - destruct (valid_mode_accepted mode Hc) as [Hacc Hm].
    rewrite (subscribe_run env i mode r w wd Hacc). cbv zeta.
    rewrite !Hv, Hm.
    assert (Hs : forall wd',
      the_subscriptions (subscribed_after (as_list i) (requested_mode mode) w, wd')
      = fold_left (fun d t => PyDict.set t (requested_mode mode) d) (as_list i)
                  (subscribed_instruments (store w))) by reflexivity.
    destruct (requested_mode mode =? MODE_QUOTE)%string; cbn [snd];
      rewrite Hs; (split; [intros t; apply get_fold_set
                          | apply NoDup_fold_set]).
  - rewrite (unsubscribe_run env i w wd). cbv zeta. rewrite Hv. cbn [snd].
    destruct (unsubscribed_state_fields (as_list i) w
      (world_add wd [KwsUnsubscribe (as_list i)]
                 [(INFO, "Unsubscribed from instruments")])) as (_ & Hsub & _).
    rewrite Hsub.
    split; [intros t; apply get_fold_pop | apply NoDup_fold_pop].
Qed.

(** C1: run any history of [subscribe] calls (valid or omitted mode) and
    [unsubscribe] calls against a vendor client that accepts every call.
    Then a token is in the subscription map exactly when the last call that
    names it is a [subscribe], and it is mapped to the mode of that call; if
    the last call naming it is an [unsubscribe] it is absent; a token no call
    names is as it was (absent, when starting from a new object).  Keys stay
    unique, and subscribing a token that is already in the map leaves the
    keys as they are: the mode of the one entry is overwritten. *)
Theorem subscriptions_reflect_last_request env cs s :
  vendor_never_raises env ->
  Forall subscription_call cs ->
  (forall t,
     PyDict.get t (the_subscriptions (run_calls env cs s)) =
     match last_request t cs with
     | Some (CallSubscribe _ mode _) => Some (requested_mode mode)
     | Some _ => None
     | None => PyDict.get t (the_subscriptions s)
     end)
  /\ (NoDup (PyDict.keys (the_subscriptions s)) ->
      NoDup (PyDict.keys (the_subscriptions (run_calls env cs s))))
  /\ (forall t mode r,
        In t (PyDict.keys (the_subscriptions s)) ->
        subscription_call (CallSubscribe (OneToken t) mode r) ->
        PyDict.keys
          (the_subscriptions (exec (subscribe env (OneToken t) mode r) s)) =
        PyDict.keys (the_subscriptions s)).
Proof.
  intros Hv Hall.
  assert (Hagain : forall t mode r,
        In t (PyDict.keys (the_subscriptions s)) ->
        subscription_call (CallSubscribe (OneToken t) mode r) ->
        PyDict.keys
          (the_subscriptions (exec (subscribe env (OneToken t) mode r) s)) =
        PyDict.keys (the_subscriptions s)).
  { intros t mode r Hin Hc. destruct s as [w wd].
    destruct (valid_mode_accepted mode Hc) as [Hacc _].
    unfold exec. rewrite (subscribe_run env (OneToken t) mode r w wd Hacc).
    cbv zeta. rewrite !Hv.
    destruct (_ =? MODE_QUOTE)%string; cbn [snd];
      apply (dict_keys_set_in t _ (subscribed_instruments (store w)) Hin). }
  cut ((forall t,
     PyDict.get t (the_subscriptions (run_calls env cs s)) =
     match last_request t cs with
     | Some (CallSubscribe _ mode _) => Some (requested_mode mode)
     | Some _ => None
     | None => PyDict.get t (the_subscriptions s)
     end)
  /\ (NoDup (PyDict.keys (the_subscriptions s)) ->
      NoDup (PyDict.keys (the_subscriptions (run_calls env cs s))))).
  { intros [H1 H2]. split; [exact H1 | split; [exact H2 | exact Hagain]]. }
  clear Hagain. revert Hall.
  induction cs as [|c cs IH] using rev_ind; intros Hall.
  - split; [intros t; reflexivity | intros H; exact H].
  - apply Forall_app in Hall as [Hcs Hc]. inversion Hc as [|? ? Hc1 _]; subst.
    destruct (IH Hcs) as [IHget IHnd].
    destruct (subscription_call_step env c (run_calls env cs s) Hv Hc1)
      as [Hget Hnd].
    rewrite run_calls_snoc. split.
    + intros t. rewrite Hget, last_request_snoc.
      destruct (names_token t c) eqn:En.
      * destruct c; try discriminate; reflexivity.
      * apply IHget.
    + intros H. apply Hnd, IHnd, H.
Qed.

Lemma subscriptions_reflect_last_request_witness :
  let cs := [CallSubscribe (TokenList [100%Z; 200%Z]) None false;
             CallSubscribe (TokenList [200%Z; 300%Z]) (Some MODE_FULL) false;
             CallUnsubscribe (TokenList [100%Z]);
             CallSubscribe (OneToken 300%Z) (Some MODE_LTP) false] in
  PyDict.get 100%Z (the_subscriptions (run_calls env_ok cs state0)) = None
  /\ PyDict.get 200%Z (the_subscriptions (run_calls env_ok cs state0))
     = Some MODE_FULL
  /\ PyDict.get 300%Z (the_subscriptions (run_calls env_ok cs state0))
     = Some MODE_LTP
  /\ PyDict.get 400%Z (the_subscriptions (run_calls env_ok cs state0)) = None
  /\ NoDup (PyDict.keys (the_subscriptions (run_calls env_ok cs state0))).
Proof.
  assert (Hv : vendor_never_raises env_ok) by (intros h c; reflexivity).
  assert (Hall : Forall subscription_call
    [CallSubscribe (TokenList [100%Z; 200%Z]) None false;
     CallSubscribe (TokenList [200%Z; 300%Z]) (Some MODE_FULL) false;
     CallUnsubscribe (TokenList [100%Z]);
     CallSubscribe (OneToken 300%Z) (Some MODE_LTP) false]).
  { apply Forall_cons; [left; reflexivity|].
    apply Forall_cons;
      [right; exists MODE_FULL; split; [reflexivity | simpl; tauto]|].
    apply Forall_cons; [exact I|].
    apply Forall_cons;
      [right; exists MODE_LTP; split; [reflexivity | simpl; tauto]|].
    apply Forall_nil. }
  destruct (subscriptions_reflect_last_request env_ok _ state0 Hv Hall)
    as (Hget & Hnd & _).
  cbv zeta. split; [|split; [|split; [|split]]].
  - rewrite Hget. reflexivity.
  - rewrite Hget. reflexivity.
  - rewrite Hget. reflexivity.
  - rewrite Hget. reflexivity.
  - apply Hnd. constructor.
Defined.

(** ** Lists: the last elements *)

Lemma last_n_length {A} n (l : list A) : length (last_n n l) <= n.
Proof. unfold last_n. rewrite length_skipn. lia. Qed.

Lemma last_n_short {A} n (l : list A) : length l <= n -> last_n n l = l.
Proof.
  intros H. unfold last_n. replace (length l - n) with 0 by lia. reflexivity.
Qed.

Lemma last_n_app_last_n {A} n (x y : list A) :
  last_n n (last_n n x ++ y) = last_n n (x ++ y).
Proof.
  unfold last_n. rewrite !length_app, length_skipn, !skipn_app, skipn_skipn.
  rewrite length_skipn.
  destruct (Nat.le_gt_cases (length x) n) as [Hle|Hgt].
  - replace (length x - n) with 0 by lia. simpl skipn at 2.
    rewrite Nat.sub_0_r. rewrite Nat.add_0_r. reflexivity.
  - replace (length x - (length x - n)) with n by lia.
    f_equal.
    + f_equal. lia.
    + f_equal. lia.
Qed.

Lemma last_n_map {A B} (f : A -> B) n l :
  map f (last_n n l) = last_n n (map f l).
Proof. unfold last_n. rewrite length_map, skipn_map. reflexivity. Qed.

Lemma slice_last_1000 {A} (l : list A) :
  (if (1000 <? length l)%nat then slice_from (-1000) l else l) = last_n 1000 l.
Proof.
  unfold last_n, slice_from.
  destruct (Nat.ltb_spec 1000 (length l)) as [Hlt|Hge].
  - cbn [Z.ltb Z.compare]. f_equal. lia.
  - replace (length l - 1000) with 0 by lia. reflexivity.
Qed.

Lemma fold_last_n {A} n (rs h : list A) :
  length h <= n ->
  fold_left (fun h r => last_n n (h ++ [r])) rs h = last_n n (h ++ rs).
Proof.
  revert h. induction rs as [|r rs IH]; intros h Hle; simpl.
  - rewrite app_nil_r. symmetry. apply last_n_short. exact Hle.
  - rewrite IH by apply last_n_length.
    rewrite last_n_app_last_n, <- app_assoc. reflexivity.
Qed.

Lemma fold_last_n_nonempty {A} n (rs h : list A) :
  rs <> [] ->
  fold_left (fun h r => last_n n (h ++ [r])) rs h = last_n n (h ++ rs).
Proof.
  destruct rs as [|r rs]; [congruence|]. intros _. simpl.
  rewrite fold_last_n by apply last_n_length.
  rewrite last_n_app_last_n, <- app_assoc. reflexivity.
Qed.

Lemma find_snoc {A} (f : A -> bool) l x :
  find f (l ++ [x]) =
  match find f l with
  | Some y => Some y
  | None => if f x then Some x else None
  end.
Proof.
  induction l as [|a l IH]; simpl; [reflexivity|].
  destruct (f a); [reflexivity | exact IH].
Qed.

(** ** Recording ticks *)

Lemma record_tick_history t tick st k :
  match PyDict.get k (tick_data (record_tick t tick st)) with
  | Some h => h | None => [] end =
  if tick_for k tick
  then last_n 1000 (match PyDict.get k (tick_data st) with
                    | Some h => h | None => [] end ++ [mkStamped t tick])
  else match PyDict.get k (tick_data st) with Some h => h | None => [] end.
Proof.
  unfold record_tick, tick_for. cbn [tick_data set_latest_ticks set_tick_data].
  set (token := instrument_token tick).
  set (r := mkStamped t tick).
  assert (Hd1 : forall k',
    PyDict.get k' (dd_append token r (tick_data st)) =
    if (k' =? token)%Z
    then Some (match PyDict.get token (tick_data st) with
               | Some h => h | None => [] end ++ [r])
    else PyDict.get k' (tick_data st)).
  { intros k'. unfold dd_append, dd_getitem.
    destruct (PyDict.get token (tick_data st)) as [h|] eqn:E.
    - rewrite dict_get_set. reflexivity.
    - rewrite !dict_get_set. cbn [keqb EqKey_Z].
      destruct (Z.eqb_spec k' token); reflexivity. }
  assert (Hl : fst (dd_getitem token (dd_append token r (tick_data st))) =
               match PyDict.get token (tick_data st) with
               | Some h => h | None => [] end ++ [r]).
  { unfold dd_getitem at 1. rewrite Hd1, Z.eqb_refl. reflexivity. }
  rewrite Hl.
  set (h1 := match PyDict.get token (tick_data st) with
             | Some h => h | None => [] end ++ [r]) in *.
  rewrite (Z.eqb_sym token k).
  destruct (Nat.ltb_spec 1000 (length h1)) as [Hlt|Hge].
  - rewrite dict_get_set. cbn [keqb EqKey_Z].
    destruct (Z.eqb_spec k token) as [->|Hne].
    + pose proof (slice_last_1000 h1) as Hs.
      destruct (Nat.ltb_spec 1000 (length h1)); [|lia].
      rewrite Hs. reflexivity.
    + rewrite Hd1. destruct (Z.eqb_spec k token); [contradiction|reflexivity].
  - rewrite Hd1. destruct (Z.eqb_spec k token) as [->|Hne].
    + rewrite last_n_short by exact Hge. reflexivity.
    + reflexivity.
Qed.

Lemma record_tick_latest t tick st k :
  PyDict.get k (latest_ticks (record_tick t tick st)) =
  if tick_for k tick then Some tick else PyDict.get k (latest_ticks st).
Proof.
  unfold record_tick, tick_for. cbn [latest_ticks set_latest_ticks].
  rewrite dict_get_set. cbn [keqb EqKey_Z]. rewrite Z.eqb_sym. reflexivity.
Qed.

(** The store after recording a whole stamped batch. *)
Lemma record_all_history rs st k :
  match PyDict.get k (tick_data
        (fold_left (fun st r => record_tick (timestamp r) (data r) st) rs st))
  with Some h => h | None => [] end =
  fold_left (fun h r => last_n 1000 (h ++ [r])) (filter (record_for k) rs)
    match PyDict.get k (tick_data st) with Some h => h | None => [] end.
Proof.
  revert st. induction rs as [|r rs IH]; intros st; simpl; [reflexivity|].
  rewrite IH, record_tick_history. unfold record_for at 2.
  destruct (tick_for k (data r)); [|reflexivity].
  simpl. destruct r; reflexivity.
Qed.

Lemma record_all_latest rs st k :
  PyDict.get k (latest_ticks
    (fold_left (fun st r => record_tick (timestamp r) (data r) st) rs st)) =
  match find (record_for k) (rev rs) with
  | Some r => Some (data r)
  | None => PyDict.get k (latest_ticks st)
  end.
Proof.
  revert st. induction rs as [|r rs IH]; intros st; simpl; [reflexivity|].
  rewrite IH, find_snoc, record_tick_latest. clear IH.
  destruct (find (record_for k) (rev rs)); [reflexivity|].
  unfold record_for. destruct (tick_for k (data r)); reflexivity.
Qed.

Lemma record_all_frame rs st :
  let st' := fold_left (fun st r => record_tick (timestamp r) (data r) st) rs st in
  subscribed_instruments st' = subscribed_instruments st
  /\ order_updates st' = order_updates st
  /\ connection_status st' = connection_status st
  /\ connection_count st' = connection_count st
  /\ last_tick_time st' = last_tick_time st
  /\ is_running st' = is_running st.
Proof.
  revert st. induction rs as [|r rs IH]; intros st; simpl; [repeat split|].
  exact (IH _).
Qed.

Lemma stamp_data env c ticks : map data (stamp env c ticks) = ticks.
Proof.
  revert c. induction ticks as [|t ts IH]; intros c; simpl; [reflexivity|].
  rewrite IH. reflexivity.
Qed.

Lemma filter_record_for k rs :
  map data (filter (record_for k) rs) = filter (tick_for k) (map data rs).
Proof.
  induction rs as [|r rs IH]; simpl; [reflexivity|].
  unfold record_for at 1. destruct (tick_for k (data r)); simpl; rewrite IH;
    reflexivity.
Qed.

Lemma find_record_for k rs :
  option_map data (find (record_for k) rs) = find (tick_for k) (map data rs).
Proof.
  induction rs as [|r rs IH]; simpl; [reflexivity|].
  unfold record_for at 1. destruct (tick_for k (data r)); [reflexivity|exact IH].
Qed.

(** The loop of [_on_ticks] is the fold of [record_tick] over the stamped
    batch, and costs one clock reading a tick. *)
Lemma on_ticks_loop env ticks w wd :
  for_each ticks (fun tick =>
      let token := instrument_token tick in
      t <- datetime_now env ;;
      modify_store (fun s =>
        set_tick_data (dd_append token (mkStamped t tick) (tick_data s)) s) ;;
      s <- get_store ;;
      (if (1000 <? length (fst (dd_getitem token (tick_data s))))%nat
       then modify_store (fun s =>
              set_tick_data
                (PyDict.set token
                   (slice_from (-1000) (fst (dd_getitem token (tick_data s))))
                   (tick_data s)) s)
       else ret tt) ;;
      modify_store (fun s =>
        set_latest_ticks (PyDict.set token tick (latest_ticks s)) s)) (w, wd) =
  (Ok tt,
   (set_store
      (fold_left (fun st r => record_tick (timestamp r) (data r) st)
                 (stamp env (clock_reads wd) ticks) (store w)) w,
    mkWorld (kws_calls wd) (clock_reads wd + length ticks) (invocations wd)
            (log wd))).
Proof.
  revert w wd. induction ticks as [|tick ticks IH]; intros w wd.
  - simpl. unfold ret. rewrite set_store_same, Nat.add_0_r.
    destruct wd; reflexivity.
  - cbn [for_each]. unfold bind at 1.
    match goal with
    | |- context [match ?body (w, wd) with _ => _ end] =>
        assert (Hb : body (w, wd) =
          (Ok tt,
           (set_store (record_tick (now env (clock_reads wd)) tick (store w)) w,
            mkWorld (kws_calls wd) (S (clock_reads wd)) (invocations wd)
                    (log wd))))
    end.
    { unfold bind, datetime_now, modify_store, get_store, record_tick.
      cbn [fst snd store set_store tick_data set_tick_data].
      destruct (1000 <? _)%nat; destruct w; reflexivity. }
    cbv zeta in Hb. cbv zeta. rewrite Hb. rewrite IH.
    cbn [stamp fold_left store set_store clock_reads kws_calls invocations log
         timestamp data length].
    rewrite Nat.add_succ_r. destruct w; reflexivity.
Qed.

(** ** Fan-out to observers *)

Lemma dispatch_run cbs arg msg w wd :
  dispatch cbs arg msg (w, wd) =
  (Ok tt,
   (w, mkWorld (kws_calls wd) (clock_reads wd)
               (invocations wd ++ map (invocation_of arg (store w)) cbs)
               (log wd ++ dispatch_log cbs (store w) arg msg))).
Proof.
  unfold dispatch. revert wd.
  induction cbs as [|cb cbs IH]; intros wd; simpl.
  - unfold ret. rewrite !app_nil_r. destruct wd; reflexivity.
  - unfold bind at 1, try_except, call. cbn [fst snd store].
    destruct (cb_call cb (store w) arg) as [tag|].
    + unfold logger. cbn [fst snd kws_calls clock_reads invocations log].
      rewrite IH. cbn [kws_calls clock_reads invocations log].
      rewrite <- !app_assoc. reflexivity.
    + rewrite IH. cbn [kws_calls clock_reads invocations log].
      rewrite <- !app_assoc. reflexivity.
Qed.

Lemma on_ticks_run env ticks w wd :
  _on_ticks env ticks (w, wd) =
  (Ok tt,
   (set_store (ticks_recorded env (clock_reads wd) ticks (store w)) w,
    mkWorld (kws_calls wd) (S (clock_reads wd) + length ticks)
      (invocations wd ++
       map (invocation_of (TicksArg ticks)
              (ticks_recorded env (clock_reads wd) ticks (store w)))
           (custom_tick_callbacks w))
      (log wd ++
       dispatch_log (custom_tick_callbacks w)
         (ticks_recorded env (clock_reads wd) ticks (store w))
         (TicksArg ticks) "Error in custom tick callback" ++
       [(DEBUG, "Received ticks")]))).
Proof.
  unfold _on_ticks. unfold bind at 1. unfold datetime_now at 1.
  cbn [fst snd]. unfold bind at 1. unfold modify_store at 1. cbn [fst snd].
  unfold bind at 1. rewrite on_ticks_loop.
  unfold bind at 1. unfold get_self. cbn [fst snd].
  unfold bind at 1. rewrite dispatch_run. unfold logger.
  cbn [fst snd kws_calls clock_reads invocations log store set_store
       custom_tick_callbacks].
  unfold ticks_recorded. rewrite <- app_assoc.
  destruct w; reflexivity.
Qed.

(** ** What the methods leave alone *)

Lemma subscribe_keeps_tick_data env i m r :
  stable (keeps the_tick_data) (subscribe env i m r).
Proof. unfold subscribe. repeat stable_step. Qed.

Lemma skipn_exact {A} (l x : list A) : skipn (length l) (l ++ x) = x.
Proof. induction l as [|a l IH]; simpl; [reflexivity | exact IH]. Qed.

Lemma existsb_filter_nil {A} (f : A -> bool) l :
  existsb f l = false <-> filter f l = [].
Proof.
  induction l as [|a l IH]; simpl; [tauto|].
  destruct (f a); simpl; [split; discriminate | exact IH].
Qed.

Lemma stamped_for_nil env c ticks k :
  existsb (tick_for k) ticks = false <->
  filter (record_for k) (stamp env c ticks) = [].
Proof.
  rewrite existsb_filter_nil.
  rewrite <- (stamp_data env c ticks) at 1. rewrite <- filter_record_for.
  split.
  - apply map_eq_nil.
  - intros ->. reflexivity.
Qed.

Lemma ticks_recorded_history env c ticks st k :
  match PyDict.get k (tick_data (ticks_recorded env c ticks st)) with
  | Some h => h | None => [] end =
  if existsb (tick_for k) ticks
  then last_n 1000
         (match PyDict.get k (tick_data st) with Some h => h | None => [] end
          ++ filter (record_for k) (stamp env (S c) ticks))
  else match PyDict.get k (tick_data st) with Some h => h | None => [] end.
Proof.
  unfold ticks_recorded. rewrite record_all_history.
  cbn [tick_data set_last_tick_time].
  destruct (existsb (tick_for k) ticks) eqn:E.
  - apply fold_last_n_nonempty. intros Hnil.
    apply (stamped_for_nil env (S c)) in Hnil. congruence.
  - apply (stamped_for_nil env (S c)) in E. rewrite E. reflexivity.
Qed.

Lemma ticks_recorded_latest env c ticks st k :
  PyDict.get k (latest_ticks (ticks_recorded env c ticks st)) =
  match find (tick_for k) (rev ticks) with
  | Some t => Some t
  | None => PyDict.get k (latest_ticks st)
  end.
Proof.
  unfold ticks_recorded. rewrite record_all_latest.
  cbn [latest_ticks set_last_tick_time].
  rewrite <- (stamp_data env (S c) ticks) at 2.
  rewrite <- map_rev, <- find_record_for.
  destruct (find (record_for k) (rev (stamp env (S c) ticks))); reflexivity.
Qed.

(** ** A batch of ticks *)

(** C6: [_on_ticks] returns; every tick of the batch is appended, under the
    clock reading taken for it, to the history of its instrument (cut back
    to the last 1000); the latest tick of an instrument is the last tick of
    the batch for it; the last-tick time is the reading taken on entry.
    Each registered tick observer is then called once, in order, with the
    whole batch, and what it can see is the data with all ticks recorded.
    So after [subscribe([738561, 5633], FULL)] and one tick for 738561, that
    tick is the latest and the history has length 1. *)
Theorem on_ticks_records_then_notifies env ticks s :
  result (_on_ticks env ticks) s = Ok tt
  /\ (forall k,
        the_history (exec (_on_ticks env ticks) s) k =
        if existsb (tick_for k) ticks
        then last_n 1000
               (the_history s k ++
                filter (record_for k) (stamp env (S (clock_reads (snd s))) ticks))
        else the_history s k)
  /\ (forall k,
        PyDict.get k (the_latest_ticks (exec (_on_ticks env ticks) s)) =
        match find (tick_for k) (rev ticks) with
        | Some t => Some t
        | None => PyDict.get k (the_latest_ticks s)
        end)
  /\ last_tick_time (store (fst (exec (_on_ticks env ticks) s))) =
     Some (now env (clock_reads (snd s)))
  /\ invocations_since (snd s) (snd (exec (_on_ticks env ticks) s)) =
     map (invocation_of (TicksArg ticks)
            (store (fst (exec (_on_ticks env ticks) s))))
         (custom_tick_callbacks (fst s))
  /\ (let s1 := exec (subscribe env (TokenList [738561%Z; 5633%Z])
                                (Some MODE_FULL) false) state0 in
      let s2 := exec (_on_ticks env [tick_2500]) s1 in
      result (get_latest_tick 738561) s2 = Ok (Some tick_2500)
      /\ length (value (get_tick_history 738561 None) s2 []) = 1).
Proof.
  assert (Hgen : forall env ticks s,
    (forall k,
        the_history (exec (_on_ticks env ticks) s) k =
        if existsb (tick_for k) ticks
        then last_n 1000
               (the_history s k ++
                filter (record_for k) (stamp env (S (clock_reads (snd s))) ticks))
        else the_history s k)
    /\ (forall k,
        PyDict.get k (the_latest_ticks (exec (_on_ticks env ticks) s)) =
        match find (tick_for k) (rev ticks) with
        | Some t => Some t
        | None => PyDict.get k (the_latest_ticks s)
        end)).
  { clear. intros env ticks [w wd]. unfold exec. rewrite on_ticks_run.
    unfold the_history, the_tick_data, the_latest_ticks.
    cbn [fst snd store set_store]. split; intros k.
    - apply ticks_recorded_history.
    - apply ticks_recorded_latest. }
  destruct (Hgen env ticks s) as [Hh Hl].
  split; [|split; [exact Hh|split; [exact Hl|split; [|split]]]].
  - destruct s as [w wd]. unfold result. rewrite on_ticks_run. reflexivity.
  - destruct s as [w wd]. unfold exec. rewrite on_ticks_run.
    cbn [fst snd store set_store]. unfold ticks_recorded.
    destruct (record_all_frame (stamp env (S (clock_reads wd)) ticks)
                (set_last_tick_time (Some (now env (clock_reads wd))) (store w)))
      as (_ & _ & _ & _ & Ht & _).
    rewrite Ht. reflexivity.
  - destruct s as [w wd]. unfold exec, invocations_since.
    rewrite on_ticks_run. cbn [fst snd store set_store invocations].
    apply skipn_exact.
  - cbv zeta.
    set (s1 := exec (subscribe env (TokenList [738561%Z; 5633%Z])
                               (Some MODE_FULL) false) state0).
    assert (Htd : the_tick_data s1 = []).
    { exact (subscribe_keeps_tick_data env _ _ _ state0). }
    assert (Hh1 : the_history s1 738561 = []).
    { unfold the_history. rewrite Htd. reflexivity. }
    destruct (Hgen env [tick_2500] s1) as [Hh2 Hl2].
    split.
    + unfold result. rewrite get_latest_tick_run. cbn [fst].
      rewrite Hl2. reflexivity.
    + unfold value. rewrite get_tick_history_run. cbn [fst history_view].
      rewrite Hh2, Hh1. reflexivity.
Qed.

Lemma perform_keeps_tick_data env c :
  match c with
  | EvTicks _ | CallClearData => True
  | _ => stable (keeps the_tick_data) (perform env c)
  end.
Proof.
  destruct c; try exact I; cbn [perform];
    unfold void, get_connection_status, __enter__, __exit__;
    unfold subscribe, unsubscribe, set_mode, connect, disconnect,
      _connect_worker, add_tick_callback, add_connect_callback,
      add_disconnect_callback, add_error_callback, add_order_callback,
      void, get_latest_tick, get_tick_history, get_subscribed_instruments,
      get_order_updates, _on_connect, _resubscribe_all, _on_close, _on_error,
      _on_order_update, _on_reconnect, _on_noreconnect, dispatch, subscribe;
    repeat stable_step.
Qed.

Lemma clear_data_history s k : the_history (exec clear_data s) k = [].
Proof. reflexivity. Qed.

Lemma on_ticks_history env ticks s k :
  the_history (exec (_on_ticks env ticks) s) k =
  if existsb (tick_for k) ticks
  then last_n 1000
         (the_history s k ++
          filter (record_for k) (stamp env (S (clock_reads (snd s))) ticks))
  else the_history s k.
Proof.
  destruct s as [w wd]. unfold exec. rewrite on_ticks_run.
  unfold the_history, the_tick_data. cbn [fst snd store set_store].
  apply ticks_recorded_history.
Qed.

Lemma other_calls_history env c s k :
  match c with
  | EvTicks _ | CallClearData => True
  | _ => the_history (exec (perform env c) s) k = the_history s k
  end.
Proof.
  pose proof (perform_keeps_tick_data env c) as H.
  destruct c; try exact I; unfold the_history, exec;
    specialize (H s); unfold keeps in H; cbn [perform] in H |- *;
    rewrite H; reflexivity.
Qed.

(** ** The bound on the histories *)

Lemma perform_bounded env c s :
  bounded s -> bounded (exec (perform env c) s).
Proof.
  intros Hb k. pose proof (other_calls_history env c s k) as Ho.
  destruct c; try (rewrite Ho; apply Hb).
  - cbn [perform]. rewrite clear_data_history. simpl. lia.
  - cbn [perform]. rewrite on_ticks_history.
    destruct (existsb (tick_for k) ticks); [apply last_n_length | apply Hb].
Qed.

Lemma run_calls_bounded env cs s :
  bounded s -> bounded (run_calls env cs s).
Proof.
  revert s. induction cs as [|c cs IH]; intros s Hb; [exact Hb|].
  apply IH. apply perform_bounded. exact Hb.
Qed.

Lemma delivered_snoc cs c :
  delivered (cs ++ [c]) =
  delivered cs ++ match c with EvTicks ticks => ticks | _ => [] end.
Proof. unfold delivered. rewrite flat_map_app. simpl. rewrite app_nil_r. reflexivity. Qed.

Lemma slice_from_length {A} z (l : list A) : length (slice_from z l) <= length l.
Proof. unfold slice_from. rewrite length_skipn. lia. Qed.

Lemma history_view_length {A} count (h : list A) :
  length (history_view count h) <= length h.
Proof.
  unfold history_view. destruct count as [c|]; [|lia].
  destruct (truthy_int (Some c)); [apply slice_from_length | lia].
Qed.

Lemma run_calls_fifo env cs k :
  existsb is_clear_data cs = false ->
  map data (the_history (run_calls env cs state0) k) =
  last_n 1000 (filter (tick_for k) (delivered cs)).
Proof.
  induction cs as [|c cs IH] using rev_ind; intros Hnc.
  - reflexivity.
  - rewrite existsb_app in Hnc. apply orb_false_iff in Hnc as [Hcs Hc].
    simpl in Hc. rewrite orb_false_r in Hc.
    specialize (IH Hcs).
    rewrite run_calls_snoc, delivered_snoc, filter_app.
    pose proof (other_calls_history env c (run_calls env cs state0) k) as Ho.
    destruct c; try discriminate;
      try (rewrite Ho, app_nil_r; exact IH).
    cbn [perform]. rewrite on_ticks_history.
    destruct (existsb (tick_for k) ticks) eqn:E.
    + rewrite last_n_map, map_app, IH, filter_record_for, stamp_data.
      apply last_n_app_last_n.
    + apply existsb_filter_nil in E. rewrite E, app_nil_r. exact IH.
Qed.

(** C3: after any history of calls and events on a new object, no query of
    a token's tick history returns more than 1000 entries; and as long as
    the data was not cleared, the history holds, in the order of delivery
    (oldest first), the last 1000 ticks delivered for the token: all of
    them if there were at most 1000, exactly the 1000 most recent ones
    otherwise. *)
Theorem tick_history_bounded_fifo env cs token :
  (forall count,
     length (value (get_tick_history token count) (run_calls env cs state0) [])
     <= 1000)
  /\ (existsb is_clear_data cs = false ->
      map data (value (get_tick_history token None) (run_calls env cs state0) [])
      = last_n 1000 (filter (tick_for token) (delivered cs))
      /\ (1000 < length (filter (tick_for token) (delivered cs)) ->
          length (value (get_tick_history token None)
                        (run_calls env cs state0) []) = 1000)).
Proof.
  split.
  - intros count. unfold value. rewrite get_tick_history_run. cbn [fst].
    etransitivity; [apply history_view_length|].
    apply run_calls_bounded. intros k. simpl. lia.
  - intros Hnc. unfold value. rewrite get_tick_history_run.
    cbn [fst history_view]. pose proof (run_calls_fifo env cs token Hnc) as Hf.
    split; [exact Hf|].
    intros Hlen. rewrite <- (length_map data), Hf.
    unfold last_n. rewrite length_skipn. lia.
Qed.

Lemma tick_history_bounded_fifo_witness :
  let cs := [EvTicks [mkTick 5 [("last_price", 1%Z)];
                      mkTick 6 [("last_price", 2%Z)]];
             CallSubscribe (TokenList [5%Z]) None false;
             EvTicks [mkTick 5 [("last_price", 3%Z)]]] in
  map data (value (get_tick_history 5 None) (run_calls env_ok cs state0) [])
  = [mkTick 5 [("last_price", 1%Z)]; mkTick 5 [("last_price", 3%Z)]].
Proof.
  cbv zeta.
  rewrite (proj1 (proj2 (tick_history_bounded_fifo env_ok
     [EvTicks [mkTick 5 [("last_price", 1%Z)];
               mkTick 6 [("last_price", 2%Z)]];
      CallSubscribe (TokenList [5%Z]) None false;
      EvTicks [mkTick 5 [("last_price", 3%Z)]]] 5) eq_refl)).
  reflexivity.
Defined.

(** Eviction at work: 1001 ticks for one token, numbered by price; the
    history keeps 1000 of them and the oldest one left is number 1. *)
Example eviction_after_1001_ticks :
  let batch := map (fun n => mkTick 5 [("last_price", Z.of_nat n)]) (seq 0 1001) in
  let h := value (get_tick_history 5 None)
                 (run_calls env_ok [EvTicks batch] state0) [] in
  length h = 1000
  /\ option_map data (hd_error h) = Some (mkTick 5 [("last_price", 1%Z)]).
Proof. vm_compute. split; reflexivity. Qed.

(** ** Grouping by mode *)

Lemma dd_append_nil {K A} `{EqKey K} (k : K) (x : A) :
  dd_append k x [] = [(k, [x])].
Proof.
  unfold dd_append, dd_getitem. simpl. rewrite keqb_refl. reflexivity.
Qed.

Lemma dd_append_cons {K A} `{EqKey K} (k k0 : K) (x : A) v d :
  dd_append k x ((k0, v) :: d) =
  if keqb k k0 then (k0, v ++ [x]) :: d else (k0, v) :: dd_append k x d.
Proof.
  unfold dd_append, dd_getitem. simpl.
  destruct (keqb k k0) eqn:E.
  - simpl. rewrite E. reflexivity.
  - destruct (PyDict.get k d) as [l|]; simpl; rewrite ?E; simpl; rewrite ?E;
      reflexivity.
Qed.

Lemma dd_append_get {K A} `{EqKey K} (k k' : K) (x : A) d :
  PyDict.get k' (dd_append k x d) =
  if keqb k' k
  then Some (match PyDict.get k d with Some l => l | None => [] end ++ [x])
  else PyDict.get k' d.
Proof.
  induction d as [|[k0 v] d IH].
  - rewrite dd_append_nil. simpl. destruct (keqb k' k); reflexivity.
  - rewrite dd_append_cons. simpl.
    destruct (keqb_spec k k0) as [->|Hk]; simpl.
    + destruct (keqb k' k0); reflexivity.
    + rewrite IH. destruct (keqb_spec k' k0) as [->|Hk'].
      * rewrite keqb_neq by congruence. reflexivity.
      * reflexivity.
Qed.

Lemma dd_append_keys {K A} `{EqKey K} (k : K) (x : A) d :
  NoDup (PyDict.keys d) -> NoDup (PyDict.keys (dd_append k x d)).
Proof.
  intros Hnd. unfold dd_append, dd_getitem.
  destruct (PyDict.get k d); repeat apply dict_NoDup_set; exact Hnd.
Qed.

Lemma dd_append_concat {K A} `{EqKey K} (k : K) (x : A) d :
  Permutation (concat (map snd (dd_append k x d))) (concat (map snd d) ++ [x]).
Proof.
  induction d as [|[k0 v] d IH].
  - rewrite dd_append_nil. reflexivity.
  - rewrite dd_append_cons. destruct (keqb k k0); simpl.
    + rewrite <- !app_assoc. apply Permutation_app_head.
      apply Permutation_app_comm.
    + rewrite <- app_assoc. apply Permutation_app_head. exact IH.
Qed.

Lemma group_by_mode_snoc items t m :
  group_by_mode (items ++ [(t, m)]) = dd_append m t (group_by_mode items).
Proof. unfold group_by_mode. rewrite fold_left_app. reflexivity. Qed.

Lemma group_by_mode_NoDup items : NoDup (PyDict.keys (group_by_mode items)).
Proof.
  induction items as [|[t m] items IH] using rev_ind.
  - constructor.
  - rewrite group_by_mode_snoc. apply dd_append_keys. exact IH.
Qed.

Lemma group_by_mode_concat items :
  Permutation (concat (map snd (group_by_mode items))) (map fst items).
Proof.
  induction items as [|[t m] items IH] using rev_ind.
  - reflexivity.
  - rewrite group_by_mode_snoc, map_app. simpl.
    etransitivity; [apply dd_append_concat|].
    apply Permutation_app_tail. exact IH.
Qed.

Lemma tokens_with_mode_absent m items :
  str_in m (map snd items) = false -> tokens_with_mode m items = [].
Proof.
  unfold str_in, tokens_with_mode.
  induction items as [|[t m0] items IH]; simpl; [reflexivity|].
  rewrite (String.eqb_sym m0 m).
  destruct (m =? m0)%string; simpl; [discriminate | exact IH].
Qed.

Lemma group_by_mode_get items m :
  PyDict.get m (group_by_mode items) =
  if str_in m (map snd items) then Some (tokens_with_mode m items) else None.
Proof.
  induction items as [|[t m0] items IH] using rev_ind.
  - reflexivity.
  - rewrite group_by_mode_snoc, dd_append_get. cbn [keqb EqKey_string].
    unfold tokens_with_mode, str_in in *.
    rewrite map_app, existsb_app, filter_app, map_app. simpl.
    rewrite orb_false_r, (String.eqb_sym m0 m).
    destruct (String.eqb_spec m m0) as [->|Hne].
    + rewrite orb_true_r, IH.
      destruct (existsb (String.eqb m0) (map snd items)) eqn:E; [reflexivity|].
      pose proof (tokens_with_mode_absent m0 items E) as Ha.
      unfold tokens_with_mode in Ha. rewrite Ha. reflexivity.
    + rewrite orb_false_r, app_nil_r. exact IH.
Qed.

Lemma dict_In_get {K V} `{EqKey K} (k : K) (v : V) (d : PyDict.t K V) :
  NoDup (PyDict.keys d) -> In (k, v) d -> PyDict.get k d = Some v.
Proof.
  induction d as [|[k0 v0] d IH]; simpl; [tauto|].
  intros Hnd [Heq|Hin].
  - injection Heq as -> ->. rewrite keqb_refl. reflexivity.
  - inversion Hnd as [|? ? Hn Hnd']; subst.
    destruct (keqb_spec k k0) as [->|Hne].
    + exfalso. apply Hn. apply in_map_iff. exists (k0, v). split; [reflexivity|exact Hin].
    + apply IH; assumption.
Qed.

(** The groups: one for each mode that occurs, holding the tokens recorded
    under it. *)
Lemma group_by_mode_groups items :
  NoDup (map fst (group_by_mode items))
  /\ (forall m, In m (map fst (group_by_mode items)) <-> In m (map snd items))
  /\ (forall m tokens, In (m, tokens) (group_by_mode items) ->
        tokens = tokens_with_mode m items).
Proof.
  split; [apply group_by_mode_NoDup|split].
  - intros m.
    change (map fst (group_by_mode items)) with (PyDict.keys (group_by_mode items)).
    rewrite <- (str_in_In m (map snd items)).
    pose proof (group_by_mode_get items m) as Hg.
    pose proof (dict_get_None m (group_by_mode items)) as Hn.
    destruct (str_in m (map snd items)).
    + split; [intros _; reflexivity|]. intros _.
      destruct (in_dec string_dec m (PyDict.keys (group_by_mode items)))
        as [Hin|Hnin]; [exact Hin|].
      apply Hn in Hnin. congruence.
    + split; [|discriminate]. intros Hin. apply Hn in Hg. contradiction.
  - intros m tokens Hin.
    apply dict_In_get in Hin; [|apply group_by_mode_NoDup].
    rewrite group_by_mode_get in Hin.
    destruct (str_in m (map snd items)); congruence.
Qed.

Lemma distinct_count (l l' : list string) :
  NoDup l -> (forall x, In x l <-> In x l') ->
  length l = length (nodup string_dec l').
Proof.
  intros Hnd Hin. apply Permutation_length.
  apply NoDup_Permutation; [exact Hnd | apply NoDup_nodup |].
  intros x. rewrite nodup_In. apply Hin.
Qed.

(** ** Computations that do not look at the observers *)

Lemma blind_ret {A} (a : A) : blind (ret a).
Proof. intros s1 s2 H. split; [reflexivity | exact H]. Qed.

Lemma blind_raise {A} e : blind (@raise A e).
Proof. intros s1 s2 H. split; [reflexivity | exact H]. Qed.

Lemma blind_bind {A B} (m : M A) (k : A -> M B) :
  blind m -> (forall a, blind (k a)) -> blind (bind m k).
Proof.
  intros Hm Hk s1 s2 H. unfold bind.
  destruct (Hm s1 s2 H) as [Hr Hs].
  destruct (m s1) as [[a1|e1] t1], (m s2) as [[a2|e2] t2]; simpl in Hr, Hs;
    try discriminate.
  - injection Hr as ->. apply Hk. exact Hs.
  - injection Hr as ->. split; [reflexivity | exact Hs].
Qed.

Lemma blind_try {A} (m : M A) (h : Exn -> M A) :
  blind m -> (forall e, blind (h e)) -> blind (try_except m h).
Proof.
  intros Hm Hh s1 s2 H. unfold try_except.
  destruct (Hm s1 s2 H) as [Hr Hs].
  destruct (m s1) as [[a1|e1] t1], (m s2) as [[a2|e2] t2]; simpl in Hr, Hs;
    try discriminate.
  - split; [exact Hr | exact Hs].
  - injection Hr as ->. apply Hh. exact Hs.
Qed.

Lemma blind_for_each {A} (l : list A) (body : A -> M unit) :
  (forall x, blind (body x)) -> blind (for_each l body).
Proof.
  intros Hb. induction l as [|x l IH]; simpl.
  - apply blind_ret.
  - apply blind_bind; [apply Hb | intros _; exact IH].
Qed.

Lemma blind_get_store : blind get_store.
Proof.
  intros s1 s2 [Hst Hw]. unfold get_store. simpl. rewrite Hst.
  split; [reflexivity | split; assumption].
Qed.

Lemma blind_modify_store f : blind (modify_store f).
Proof.
  intros s1 s2 [Hst Hw]. unfold modify_store, same_data. simpl.
  rewrite Hst. auto.
Qed.

Lemma blind_logger lvl msg : blind (logger lvl msg).
Proof.
  intros s1 s2 [Hst Hw]. unfold logger, same_data. simpl. rewrite Hw. auto.
Qed.

Lemma blind_datetime_now env : blind (datetime_now env).
Proof.
  intros s1 s2 [Hst Hw]. unfold datetime_now, same_data. simpl. rewrite Hw.
  auto.
Qed.

Lemma blind_kws env c : blind (kws env c).
Proof.
  intros s1 s2 [Hst Hw]. unfold kws, same_data. rewrite Hw.
  destruct (kws_raises env (kws_calls (snd s2)) c); simpl; auto.
Qed.

Ltac blind_step :=
  first
    [ apply blind_ret | apply blind_raise
    | apply blind_get_store | apply blind_modify_store | apply blind_logger
    | apply blind_datetime_now | apply blind_kws
    | apply blind_bind; [| intros ?]
    | apply blind_try; [| intros ?]
    | apply blind_for_each; intros ?
    | match goal with
      | |- blind (if ?b then _ else _) => destruct b
      end ].

Lemma blind_subscribe env i m r : blind (subscribe env i m r).
Proof. unfold subscribe. repeat blind_step. Qed.

Lemma blind_reconnect_part env : blind (reconnect_part env).
Proof.
  unfold reconnect_part, _resubscribe_all. repeat blind_step.
  apply blind_subscribe.
Qed.

Lemma returns_logger lvl msg : returns (logger lvl msg).
Proof. intros s. exists tt. reflexivity. Qed.

Lemma returns_resubscribe_group env mt : returns (resubscribe_group env mt).
Proof. apply returns_try. intros e. apply returns_logger. Qed.

Lemma returns_reconnect_part env : returns (reconnect_part env).
Proof.
  unfold reconnect_part, _resubscribe_all.
  apply returns_bind; [intros s; eexists; reflexivity | intros st].
  destruct (_ && _).
  - apply returns_bind; [apply returns_logger | intros _].
    apply returns_bind; [intros s; eexists; reflexivity | intros st'].
    destruct (negb _); [apply returns_ret|].
    apply returns_for_each. intros mt. apply (returns_resubscribe_group env mt).
  - apply returns_ret.
Qed.

Lemma reconnect_part_keeps_observers env :
  stable (keeps observers) (reconnect_part env).
Proof.
  unfold reconnect_part, _resubscribe_all, subscribe. repeat stable_step.
Qed.

Lemma reconnect_part_keeps_invocations env :
  stable (keeps (fun s => invocations (snd s))) (reconnect_part env).
Proof.
  unfold reconnect_part, _resubscribe_all, subscribe. repeat stable_step.
Qed.

(** ** The vendor calls of a resubscription *)

Lemma subscribe_args_app a b :
  subscribe_args (a ++ b) = subscribe_args a ++ subscribe_args b.
Proof.
  induction a as [|c a IH]; simpl; [reflexivity|].
  destruct c; simpl; rewrite ?IH; reflexivity.
Qed.

Lemma resubscribe_group_calls env mt s :
  exists new,
    kws_calls (snd (exec (resubscribe_group env mt) s)) =
      kws_calls (snd s) ++ new
    /\ subscribe_args new = if group_accepted mt then [snd mt] else [].
Proof.
  destruct s as [w wd]. unfold exec, resubscribe_group, try_except, group_accepted.
  destruct (accepted (Some (fst mt))) eqn:Hacc.
  - rewrite (subscribe_run env _ _ true w wd Hacc). cbv zeta. cbn [as_list].
    destruct (kws_raises env (kws_calls wd) (KwsSubscribe (snd mt))).
    + exists [KwsSubscribe (snd mt)]. split; reflexivity.
    + destruct (_ =? MODE_QUOTE)%string.
      * exists [KwsSubscribe (snd mt)]. split; reflexivity.
      * destruct (kws_raises env _ (KwsSetMode _ _));
          eexists [KwsSubscribe (snd mt); KwsSetMode _ (snd mt)];
          split; reflexivity.
  - rewrite (subscribe_rejects env _ _ true (w, wd) Hacc).
    exists []. split; [cbn; rewrite app_nil_r; reflexivity | reflexivity].
Qed.

Lemma exec_for_each_cons {A} (x : A) l (body : A -> M unit) s :
  returns (body x) ->
  for_each (x :: l) body s = for_each l body (exec (body x) s).
Proof.
  intros Hr. cbn [for_each]. unfold bind, exec.
  pose proof (returns_unit (body x) s Hr) as Hx.
  destruct (body x s) as [[[]|e] s']; [reflexivity | discriminate].
Qed.

Lemma resubscribe_loop_calls env groups s :
  exists new,
    kws_calls (snd (exec (for_each groups (resubscribe_group env)) s)) =
      kws_calls (snd s) ++ new
    /\ subscribe_args new = map snd (filter group_accepted groups).
Proof.
  revert s. induction groups as [|g groups IH]; intros s.
  - exists []. split; [cbn; rewrite app_nil_r; reflexivity | reflexivity].
  - assert (He : exec (for_each (g :: groups) (resubscribe_group env)) s =
                 exec (for_each groups (resubscribe_group env))
                      (exec (resubscribe_group env g) s)).
    { unfold exec at 1 2.
      rewrite (exec_for_each_cons g groups _ s (returns_resubscribe_group env g)).
      reflexivity. }
    rewrite He.
    destruct (resubscribe_group_calls env g s) as (n1 & Hc1 & Ha1).
    destruct (IH (exec (resubscribe_group env g) s)) as (n2 & Hc2 & Ha2).
    exists (n1 ++ n2). split.
    + rewrite Hc2, Hc1, app_assoc. reflexivity.
    + rewrite subscribe_args_app, Ha1, Ha2. cbn [filter].
      destruct (group_accepted g); reflexivity.
Qed.

Lemma reconnect_part_calls env s :
  exists new,
    kws_calls (snd (exec (reconnect_part env) s)) = kws_calls (snd s) ++ new
    /\ subscribe_args new =
       (if (1 <? connection_count (store (fst s)))%Z
        then map snd (filter group_accepted
                        (group_by_mode (the_subscriptions s)))
        else [])
    /\ ((1 <? connection_count (store (fst s)))%Z = false -> new = []).
Proof.
  destruct s as [w wd]. unfold exec, reconnect_part, the_subscriptions.
  unfold bind at 1, get_store at 1. cbn [fst snd].
  destruct (PyDict.truthy (subscribed_instruments (store w))) eqn:Et;
    destruct (1 <? connection_count (store w))%Z eqn:Ec; cbn [andb].
  - unfold bind at 1, logger at 1. cbn [fst snd].
    unfold _resubscribe_all, bind at 1, get_store at 1. cbn [fst snd].
    rewrite Et. cbn [negb].
    destruct (resubscribe_loop_calls env
                (group_by_mode (subscribed_instruments (store w)))
                (w, mkWorld (kws_calls wd) (clock_reads wd) (invocations wd)
                      (log wd ++ [(INFO, "Resubscribing to instruments after reconnection...")])))
      as (new & Hc & Ha).
    exists new. split; [exact Hc | split; [exact Ha | discriminate]].
  - exists []. cbn. rewrite app_nil_r. repeat split.
  - exists []. cbn. rewrite app_nil_r.
    destruct (subscribed_instruments (store w)); [|discriminate].
    repeat split.
  - exists []. cbn. rewrite app_nil_r. repeat split.
Qed.

(** ** The event handlers, run *)

Lemma on_connect_run env r w wd :
  let s2 := exec (reconnect_part env)
                 (connected w,
                  mkWorld (kws_calls wd) (clock_reads wd) (invocations wd)
                          (log wd ++ [(INFO, "Connected to Kite Ticker")])) in
  _on_connect env r (w, wd) =
  (Ok tt,
   (fst s2,
    mkWorld (kws_calls (snd s2)) (clock_reads (snd s2))
      (invocations (snd s2) ++
       map (invocation_of (ConnectArg r) (store (fst s2)))
           (custom_connect_callbacks (fst s2)))
      (log (snd s2) ++
       dispatch_log (custom_connect_callbacks (fst s2)) (store (fst s2))
         (ConnectArg r) "Error in custom connect callback"))).
Proof.
  intros s2.
  change (_on_connect env r (w, wd)) with
    (bind (reconnect_part env)
       (fun _ => self <- get_self ;;
                 dispatch (custom_connect_callbacks self) (ConnectArg r)
                          "Error in custom connect callback")
       (connected w,
        mkWorld (kws_calls wd) (clock_reads wd) (invocations wd)
                (log wd ++ [(INFO, "Connected to Kite Ticker")]))).
  unfold bind at 1.
  pose proof (returns_unit _ (connected w,
        mkWorld (kws_calls wd) (clock_reads wd) (invocations wd)
                (log wd ++ [(INFO, "Connected to Kite Ticker")]))
        (returns_reconnect_part env)) as Hr.
  subst s2. unfold exec.
  destruct (reconnect_part env _) as [[[]|e] [w2 wd2]]; [|discriminate].
  unfold bind, get_self. cbn [fst snd]. rewrite dispatch_run. reflexivity.
Qed.

Lemma on_close_run code reason w wd :
  _on_close code reason (w, wd) =
  (Ok tt,
   (set_store (set_connection_status "DISCONNECTED" (store w)) w,
    mkWorld (kws_calls wd) (clock_reads wd)
      (invocations wd ++
       map (invocation_of (DisconnectArg code reason)
              (set_connection_status "DISCONNECTED" (store w)))
           (custom_disconnect_callbacks w))
      (log wd ++ (WARNING, "Connection closed") ::
       dispatch_log (custom_disconnect_callbacks w)
         (set_connection_status "DISCONNECTED" (store w))
         (DisconnectArg code reason) "Error in custom disconnect callback"))).
Proof.
  unfold _on_close, bind, modify_store, logger, get_self. cbn [fst snd].
  rewrite dispatch_run.
  cbn [kws_calls clock_reads invocations log store set_store
       custom_disconnect_callbacks].
  rewrite <- app_assoc. reflexivity.
Qed.

Lemma on_error_run code reason w wd :
  _on_error code reason (w, wd) =
  (Ok tt,
   (w,
    mkWorld (kws_calls wd) (clock_reads wd)
      (invocations wd ++
       map (invocation_of (ErrorArg code reason) (store w))
           (custom_error_callbacks w))
      (log wd ++ (ERROR, "Connection error") ::
       dispatch_log (custom_error_callbacks w) (store w)
         (ErrorArg code reason) "Error in custom error callback"))).
Proof.
  unfold _on_error, bind, logger, get_self. cbn [fst snd].
  rewrite dispatch_run. cbn [kws_calls clock_reads invocations log].
  rewrite <- app_assoc. reflexivity.
Qed.

Lemma on_order_update_run env order w wd :
  _on_order_update env order (w, wd) =
  (Ok tt,
   (set_store
      (set_order_updates
         (order_updates (store w) ++ [mkStamped (now env (clock_reads wd)) order])
         (store w)) w,
    mkWorld (kws_calls wd) (S (clock_reads wd))
      (invocations wd ++
       map (invocation_of (OrderArg order)
              (set_order_updates
                 (order_updates (store w) ++
                  [mkStamped (now env (clock_reads wd)) order]) (store w)))
           (custom_order_callbacks w))
      (log wd ++
       dispatch_log (custom_order_callbacks w)
         (set_order_updates
            (order_updates (store w) ++
             [mkStamped (now env (clock_reads wd)) order]) (store w))
         (OrderArg order) "Error in custom order callback" ++
       [(INFO, "Order update received")]))).
Proof.
  unfold _on_order_update, bind, datetime_now, modify_store, get_self.
  cbn [fst snd]. rewrite dispatch_run. unfold logger.
  cbn [fst snd kws_calls clock_reads invocations log store set_store
       custom_order_callbacks].
  rewrite <- app_assoc. reflexivity.
Qed.

(** What [_on_connect] asks of the vendor client. *)
Lemma on_connect_calls env r s :
  exists new,
    kws_calls (snd (exec (_on_connect env r) s)) = kws_calls (snd s) ++ new
    /\ subscribe_args new =
       (if (1 <=? connection_count (store (fst s)))%Z
        then map snd (filter group_accepted
                        (group_by_mode (the_subscriptions s)))
        else [])
    /\ ((1 <=? connection_count (store (fst s)))%Z = false -> new = []).
Proof.
  destruct s as [w wd]. unfold exec. rewrite on_connect_run. cbv zeta.
  cbn [fst snd kws_calls].
  destruct (reconnect_part_calls env
    (connected w,
     mkWorld (kws_calls wd) (clock_reads wd) (invocations wd)
             (log wd ++ [(INFO, "Connected to Kite Ticker")])))
    as (new & Hc & Ha & Hn).
  cbn [fst snd kws_calls store connected set_store connection_count
       set_connection_count] in Hc, Ha, Hn.
  assert (Hcount : (1 <? connection_count (store w) + 1)%Z =
                   (1 <=? connection_count (store w))%Z).
  { destruct (Z.ltb_spec 1 (connection_count (store w) + 1)),
             (Z.leb_spec 1 (connection_count (store w))); try reflexivity; lia. }
  rewrite Hcount in Ha, Hn.
  exists new. split; [exact Hc | split; [exact Ha | exact Hn]].
Qed.

Lemma calls_since_app w w' new :
  kws_calls w' = kws_calls w ++ new -> calls_since w w' = new.
Proof. intros H. unfold calls_since. rewrite H. apply skipn_exact. Qed.

Lemma all_groups_accepted items :
  (forall t m, In (t, m) items -> accepted (Some m) = true) ->
  filter group_accepted (group_by_mode items) = group_by_mode items.
Proof.
  intros Hall. apply forallb_filter_id. apply forallb_forall.
  intros [m tokens] Hin. unfold group_accepted. cbn [fst].
  destruct (group_by_mode_groups items) as (_ & Hmodes & _).
  assert (Hm : In m (map snd items)).
  { apply Hmodes. apply in_map_iff. exists (m, tokens). split; [reflexivity|exact Hin]. }
  apply in_map_iff in Hm as [[t m'] [Heq Hin']]. simpl in Heq. subst m'.
  exact (Hall t m Hin').
Qed.

(** ** Reconnection *)

(** Resubscription when the recorded modes are sound: a connect event that
    takes [connection_count] from 0 to 1 makes no vendor call.  A connect
    event with [connection_count] already at least 1 groups the tokens of
    the subscription map by mode and, provided every recorded mode passes
    the mode check of [subscribe], issues exactly one vendor [subscribe] per
    distinct mode, with the tokens recorded under that mode; together the
    calls name exactly the keys of the map.  For {100: QUOTE, 200: FULL}
    these are two calls. *)
Theorem reconnect_resubscribes env r s :
  (connection_count (store (fst s)) = 0%Z ->
     calls_since (snd s) (snd (exec (_on_connect env r) s)) = [])
  /\ ((1 <= connection_count (store (fst s)))%Z ->
      (forall t m, In (t, m) (the_subscriptions s) -> accepted (Some m) = true) ->
      subscribe_args (calls_since (snd s) (snd (exec (_on_connect env r) s)))
        = map snd (group_by_mode (the_subscriptions s))
      /\ length (subscribe_args
                   (calls_since (snd s) (snd (exec (_on_connect env r) s))))
         = length (nodup string_dec (map snd (the_subscriptions s)))
      /\ Permutation
           (concat (subscribe_args
                      (calls_since (snd s) (snd (exec (_on_connect env r) s)))))
           (PyDict.keys (the_subscriptions s))
      /\ (forall m tokens,
            In (m, tokens) (group_by_mode (the_subscriptions s)) ->
            tokens = tokens_with_mode m (the_subscriptions s)))
  /\ ((1 <= connection_count (store (fst s)))%Z ->
      the_subscriptions s = [(100%Z, MODE_QUOTE); (200%Z, MODE_FULL)] ->
      subscribe_args (calls_since (snd s) (snd (exec (_on_connect env r) s)))
        = [[100%Z]; [200%Z]]).
Proof.
  destruct (on_connect_calls env r s) as (new & Hc & Ha & Hn).
  rewrite (calls_since_app _ _ new Hc).
  assert (Hmain : (1 <= connection_count (store (fst s)))%Z ->
      (forall t m, In (t, m) (the_subscriptions s) -> accepted (Some m) = true) ->
      subscribe_args new = map snd (group_by_mode (the_subscriptions s))).
  { intros Hcount Hall. rewrite Ha.
    destruct (Z.leb_spec 1 (connection_count (store (fst s)))); [|lia].
    rewrite all_groups_accepted by exact Hall. reflexivity. }
  split; [|split].
  - intros H0. apply Hn. rewrite H0. reflexivity.
  - intros Hcount Hall. rewrite (Hmain Hcount Hall).
    destruct (group_by_mode_groups (the_subscriptions s))
      as (Hnd & Hmodes & Htok).
    split; [reflexivity|split; [|split]].
    + rewrite length_map, <- (length_map fst).
      apply distinct_count; assumption.
    + apply group_by_mode_concat.
    + exact Htok.
  - intros Hcount Hmap. rewrite Hmain; [rewrite Hmap; reflexivity | exact Hcount|].
    rewrite Hmap. intros t m [Heq|[Heq|[]]]; injection Heq as <- <-; reflexivity.
Qed.

Lemma reconnect_resubscribes_witness :
  let s := run_calls env_ok
             [CallSubscribe (TokenList [100%Z; 300%Z]) None false;
              CallSubscribe (TokenList [200%Z]) (Some MODE_FULL) false;
              EvConnect "open"] state0 in
  calls_since (snd state0)
    (snd (exec (_on_connect env_ok "open") state0)) = []
  /\ subscribe_args
       (calls_since (snd s) (snd (exec (_on_connect env_ok "again") s)))
     = [[100%Z; 300%Z]; [200%Z]].
Proof.
  cbv zeta. split.
  - apply (proj1 (reconnect_resubscribes env_ok "open" state0)). reflexivity.
  - eapply eq_trans.
    + apply (proj1 (proj2 (reconnect_resubscribes env_ok "again" _))).
      * cbn. lia.
      * intros t m [Heq|[Heq|[Heq|[]]]]; injection Heq as <- <-; reflexivity.
    + reflexivity.
Defined.

(** C2, where the code departs from it.  [set_mode] records any mode,
    without the check [subscribe] makes; [_resubscribe_all] resubscribes
    through [subscribe], whose check then rejects the group of such a
    mode, and the error is only logged.  After [subscribe([100])],
    [subscribe([200])], [set_mode("depth", [200])] and a first connect, the
    map holds the tokens 100 and 200 under two distinct modes; a reconnect
    makes one vendor [subscribe] call, for token 100 alone, and token 200 is
    not resubscribed.  With token 100 alone, recorded under ["depth"], a
    reconnect asks the vendor client nothing. *)
Theorem reconnect_drops_unchecked_mode :
  (let s := run_calls env_ok
              [CallSubscribe (TokenList [100%Z]) None false;
               CallSubscribe (TokenList [200%Z]) None false;
               CallSetMode "depth" (TokenList [200%Z]);
               EvConnect "open"] state0 in
   connection_count (store (fst s)) = 1%Z
   /\ the_subscriptions s = [(100%Z, MODE_QUOTE); (200%Z, "depth")]
   /\ length (nodup string_dec (map snd (the_subscriptions s))) = 2
   /\ subscribe_args
        (calls_since (snd s) (snd (exec (_on_connect env_ok "again") s)))
      = [[100%Z]]
   /\ result (_on_connect env_ok "again") s = Ok tt)
  /\ (let s := run_calls env_ok
                 [CallSubscribe (TokenList [100%Z]) None false;
                  CallSetMode "depth" (TokenList [100%Z]);
                  EvConnect "open"] state0 in
      connection_count (store (fst s)) = 1%Z
      /\ the_subscriptions s = [(100%Z, "depth")]
      /\ length (nodup string_dec (map snd (the_subscriptions s))) = 1
      /\ subscribe_args
           (calls_since (snd s) (snd (exec (_on_connect env_ok "again") s)))
         = []).
Proof.
  cbv zeta. split.
  - split; [reflexivity|]. split; [reflexivity|]. split; [reflexivity|].
    split; reflexivity.
  - split; [reflexivity|]. split; [reflexivity|]. split; reflexivity.
Qed.

(** ** Failing observers *)

Lemma invocations_since_app w w' new :
  invocations w' = invocations w ++ new -> invocations_since w w' = new.
Proof. intros H. unfold invocations_since. rewrite H. apply skipn_exact. Qed.

Lemma reconnect_part_hush env w wd :
  same_data (exec (reconnect_part env) (w, wd))
            (exec (reconnect_part env) (hush w, wd)).
Proof.
  apply (blind_reconnect_part env (w, wd) (hush w, wd)).
  split; reflexivity.
Qed.

(** C4: for each of the five events that reach observers, whatever the
    observers do: the handler returns; every observer registered for the
    event is called, once and in order, with the event, and sees the data
    as the handler leaves it; the data and the vendor calls are the same as
    if no observer had raised; the observer lists are untouched.  On a
    reconnect, whatever the vendor client raises, every mode group whose
    mode passes the check still gets its vendor [subscribe] call, and the
    handler returns. *)
Theorem observer_failures_isolated env c s :
  worker_event c ->
  result (perform env c) s = Ok tt
  /\ invocations_since (snd s) (snd (exec (perform env c) s)) =
     map (invocation_of (arg_for c) (store (fst (exec (perform env c) s))))
         (observers_for c (fst s))
  /\ store (fst (exec (perform env c) s)) =
     store (fst (exec (perform env c) (hush (fst s), snd s)))
  /\ kws_calls (snd (exec (perform env c) s)) =
     kws_calls (snd (exec (perform env c) (hush (fst s), snd s)))
  /\ observers (exec (perform env c) s) = observers s
  /\ (forall r, c = EvConnect r ->
      (1 <= connection_count (store (fst s)))%Z ->
      subscribe_args (calls_since (snd s) (snd (exec (perform env c) s))) =
      map snd (filter group_accepted (group_by_mode (the_subscriptions s)))).
Proof.
  intros Hev. destruct s as [w wd].
  destruct c; try contradiction; clear Hev; cbn [perform fst snd];
    unfold result, exec.
  - (* ticks *)
    rewrite !on_ticks_run. cbn [fst snd store set_store invocations kws_calls].
    split; [reflexivity|].
    split; [apply skipn_exact|].
    split; [reflexivity|].
    split; [reflexivity|].
    split; [destruct w; reflexivity|].
    intros r Hd. discriminate.
  - (* connect *)
    rewrite !on_connect_run. cbv zeta.
    cbn [fst snd store invocations kws_calls].
    pose proof (reconnect_part_keeps_observers env
      (connected w, mkWorld (kws_calls wd) (clock_reads wd) (invocations wd)
                            (log wd ++ [(INFO, "Connected to Kite Ticker")])))
      as Hobs.
    pose proof (reconnect_part_keeps_invocations env
      (connected w, mkWorld (kws_calls wd) (clock_reads wd) (invocations wd)
                            (log wd ++ [(INFO, "Connected to Kite Ticker")])))
      as Hinv.
    destruct (reconnect_part_hush env (connected w)
      (mkWorld (kws_calls wd) (clock_reads wd) (invocations wd)
               (log wd ++ [(INFO, "Connected to Kite Ticker")])))
      as [Hst Hwd].
    unfold keeps, observers in Hobs. unfold keeps in Hinv.
    unfold exec in *. cbn [fst snd] in Hobs, Hinv.
    set (s2 := reconnect_part env
      (connected w, mkWorld (kws_calls wd) (clock_reads wd) (invocations wd)
                            (log wd ++ [(INFO, "Connected to Kite Ticker")])))
      in *.
    split; [reflexivity|].
    split.
    { unfold invocations_since. cbn [invocations]. rewrite Hinv.
      rewrite skipn_exact. cbn [observers_for arg_for].
      injection Hobs as _ Hc _ _ _. rewrite Hc. destruct w; reflexivity. }
    split; [exact Hst|].
    split; [rewrite Hwd; reflexivity|].
    split.
    { unfold observers. cbn [fst]. rewrite Hobs. destruct w; reflexivity. }
    intros r _ Hcount.
    destruct (on_connect_calls env response (w, wd)) as (new & Hc & Ha & _).
    unfold exec in Hc. rewrite on_connect_run in Hc. cbv zeta in Hc.
    cbn [fst snd kws_calls] in Hc. unfold exec in Hc.
    subst s2. unfold calls_since. cbn [kws_calls]. rewrite Hc.
    rewrite skipn_exact, Ha. cbn [fst].
    destruct (Z.leb_spec 1 (connection_count (store w))); [reflexivity | lia].
  - (* close *)
    rewrite !on_close_run. cbn [fst snd store set_store invocations kws_calls].
    split; [reflexivity|].
    split; [apply skipn_exact|].
    split; [reflexivity|].
    split; [reflexivity|].
    split; [destruct w; reflexivity|].
    intros r Hd. discriminate.
  - (* error *)
    rewrite !on_error_run. cbn [fst snd store invocations kws_calls].
    split; [reflexivity|].
    split; [apply skipn_exact|].
    split; [reflexivity|].
    split; [reflexivity|].
    split; [destruct w; reflexivity|].
    intros r Hd. discriminate.
  - (* order update *)
    rewrite !on_order_update_run.
    cbn [fst snd store set_store invocations kws_calls].
    split; [reflexivity|].
    split; [apply skipn_exact|].
    split; [reflexivity|].
    split; [reflexivity|].
    split; [destruct w; reflexivity|].
    intros r Hd. discriminate.
Qed.

Lemma observer_failures_isolated_witness :
  let s := run_calls env_ok
             [CallSubscribe (TokenList [100%Z]) None false;
              CallSubscribe (TokenList [200%Z]) (Some MODE_FULL) false;
              CallAddTickCallback (cb_raising 1);
              CallAddTickCallback (cb_quiet 2);
              CallAddConnectCallback (cb_raising 3);
              CallAddConnectCallback (cb_quiet 4);
              EvConnect "open"] state0 in
  (result (perform env_ok (EvTicks [tick_2500])) s = Ok tt
   /\ map inv_id
        (invocations_since (snd s)
           (snd (exec (perform env_ok (EvTicks [tick_2500])) s))) = [1; 2])
  /\ (result (perform env_subscribe_fails (EvConnect "again")) s = Ok tt
      /\ map inv_id
           (invocations_since (snd s)
              (snd (exec (perform env_subscribe_fails (EvConnect "again")) s)))
         = [3; 4]
      /\ subscribe_args
           (calls_since (snd s)
              (snd (exec (perform env_subscribe_fails (EvConnect "again")) s)))
         = [[100%Z]; [200%Z]]).
Proof.
  cbv zeta. split.
  - destruct (observer_failures_isolated env_ok (EvTicks [tick_2500])
      (run_calls env_ok
             [CallSubscribe (TokenList [100%Z]) None false;
              CallSubscribe (TokenList [200%Z]) (Some MODE_FULL) false;
              CallAddTickCallback (cb_raising 1);
              CallAddTickCallback (cb_quiet 2);
              CallAddConnectCallback (cb_raising 3);
              CallAddConnectCallback (cb_quiet 4);
              EvConnect "open"] state0) I) as (H1 & H2 & _).
    split; [exact H1 | rewrite H2; reflexivity].
  - destruct (observer_failures_isolated env_subscribe_fails (EvConnect "again")
      (run_calls env_ok
             [CallSubscribe (TokenList [100%Z]) None false;
              CallSubscribe (TokenList [200%Z]) (Some MODE_FULL) false;
              CallAddTickCallback (cb_raising 1);
              CallAddTickCallback (cb_quiet 2);
              CallAddConnectCallback (cb_raising 3);
              CallAddConnectCallback (cb_quiet 4);
              EvConnect "open"] state0) I) as (H1 & H2 & _ & _ & _ & H6).
    split; [exact H1 | split; [rewrite H2; reflexivity|]].
    rewrite (H6 "again" eq_refl); [reflexivity | cbn; lia].
Defined.

(** ** Querying the tick history *)

Lemma slice_from_last {A} (c : Z) (h : list A) :
  (0 < c)%Z -> slice_from (- c) h = last_n (Z.to_nat c) h.
Proof.
  intros Hc. unfold slice_from, last_n.
  destruct (Z.ltb_spec (- c) 0); [|lia]. f_equal. lia.
Qed.

(** With a positive [count], [get_tick_history] returns the last [count]
    entries of the stored history, oldest first, and leaves the state as it
    is; so does the call without [count], with the whole history. *)
Lemma get_tick_history_positive token c s :
  (0 < c)%Z ->
  get_tick_history token (Some c) s =
    (Ok (last_n (Z.to_nat c) (the_history s token)), s)
  /\ get_tick_history token None s = (Ok (the_history s token), s).
Proof.
  intros Hc. rewrite !get_tick_history_run. unfold history_view, truthy_int.
  destruct (Z.eqb_spec c 0); [lia|]. cbn [negb].
  rewrite slice_from_last by exact Hc. split; reflexivity.
Qed.

(** C9 at [count = 0]: the guard [if count:] takes 0 for "no count", and
    the whole history is returned, not its last 0 entries.  With three
    ticks recorded, the call returns all three. *)
Theorem get_tick_history_count_zero :
  (forall token s,
     get_tick_history token (Some 0%Z) s = (Ok (the_history s token), s))
  /\ (let s := run_calls env_ok [EvTicks [tick_2500; tick_2500; tick_2500]]
                         state0 in
      length (value (get_tick_history 738561 (Some 0%Z)) s []) = 3
      /\ last_n 0 (the_history s 738561) = []).
Proof.
  split.
  - intros token s. rewrite get_tick_history_run. reflexivity.
  - cbv zeta. split; reflexivity.
Qed.

(** * Further properties *)

(** ** Connection state *)

Lemma perform_keeps_status env c :
  match c with
  | EvConnect _ | EvClose _ _ | EvNoReconnect | CallConnect _ | EvTicks _ => True
  | _ => stable (keeps (fun s => connection_status (store (fst s))))
                (perform env c)
  end.
Proof.
  destruct c; try exact I; cbn [perform];
    unfold void, get_connection_status, __enter__, __exit__;
    unfold subscribe, unsubscribe, set_mode, disconnect,
      add_tick_callback, add_connect_callback,
      add_disconnect_callback, add_error_callback, add_order_callback,
      void, get_latest_tick, get_tick_history, get_subscribed_instruments,
      get_order_updates, clear_data, _on_error,
      _on_order_update, _on_reconnect, dispatch;
    repeat stable_step.
Qed.

Lemma reconnect_part_keeps_status env :
  stable (keeps (fun s => connection_status (store (fst s))))
         (reconnect_part env).
Proof.
  unfold reconnect_part, _resubscribe_all, subscribe. repeat stable_step.
Qed.

Lemma reconnect_part_keeps_count env :
  stable (keeps (fun s => connection_count (store (fst s))))
         (reconnect_part env).
Proof.
  unfold reconnect_part, _resubscribe_all, subscribe. repeat stable_step.
Qed.

Lemma connect_run env threaded w wd :
  connect env threaded (w, wd) =
  (Ok tt,
   match kws_raises env (kws_calls wd) KwsConnect with
   | None =>
       (set_store (set_is_running true (store w)) w,
        world_add wd [KwsConnect]
          (if threaded then [(INFO, "Started KiteTicker in threaded mode")]
           else []))
   | Some _ =>
       (set_store (set_connection_status "FAILED"
                     (set_is_running true (store w))) w,
        world_add wd [KwsConnect]
          ((ERROR, "Connection worker error") ::
           if threaded then [(INFO, "Started KiteTicker in threaded mode")]
           else []))
   end).
Proof.
  unfold connect, _connect_worker, try_except, bind, modify_store, kws, logger.
  destruct threaded; cbn;
    destruct (kws_raises env (kws_calls wd) KwsConnect);
    unfold world_add, ret; cbn; rewrite <- ?app_assoc, ?app_nil_r;
    destruct w; reflexivity.
Qed.

Lemma disconnect_run env w wd :
  disconnect env (w, wd) =
  (Ok tt,
   (set_store (set_is_running false (store w)) w,
    world_add wd [KwsClose]
      [match kws_raises env (kws_calls wd) KwsClose with
       | None => (INFO, "Disconnected from Kite Ticker")
       | Some _ => (ERROR, "Error disconnecting")
       end])).
Proof.
  unfold disconnect, try_except, bind, modify_store, kws, logger.
  cbn.
  destruct (kws_raises env (kws_calls wd) KwsClose); reflexivity.
Qed.

(** The connection status after any one call or event: a connect event
    makes it CONNECTED and a close event DISCONNECTED, whatever it was
    (FAILED included); an exhausted reconnect makes it FAILED, and so does
    [connect] when the vendor's connect raises; nothing else changes it. *)
Theorem connection_status_step env c s :
  connection_status (store (fst (exec (perform env c) s))) =
  match c with
  | EvConnect _ => "CONNECTED"
  | EvClose _ _ => "DISCONNECTED"
  | EvNoReconnect => "FAILED"
  | CallConnect _ =>
      match kws_raises env (kws_calls (snd s)) KwsConnect with
      | Some _ => "FAILED"
      | None => connection_status (store (fst s))
      end
  | _ => connection_status (store (fst s))
  end.
Proof.
  pose proof (perform_keeps_status env c) as Hk.
  destruct s as [w wd].
  destruct c; try exact (Hk (w, wd)); clear Hk; unfold exec; cbn [perform].
  - rewrite connect_run. cbn [fst snd].
    destruct (kws_raises env (kws_calls wd) KwsConnect); reflexivity.
  - rewrite on_ticks_run. cbn [fst snd store set_store]. unfold ticks_recorded.
    destruct (record_all_frame (stamp env (S (clock_reads wd)) ticks)
                (set_last_tick_time (Some (now env (clock_reads wd))) (store w)))
      as (_ & _ & Hs & _).
    rewrite Hs. reflexivity.
  - rewrite on_connect_run. cbv zeta. cbn [fst snd].
    exact (reconnect_part_keeps_status env (connected w, _)).
  - rewrite on_close_run. reflexivity.
  - reflexivity.
Qed.

Lemma perform_count_step env c s :
  connection_count (store (fst (exec (perform env c) s))) =
  (connection_count (store (fst s)) + if is_connect_event c then 1 else 0)%Z.
Proof.
  destruct s as [w wd].
  destruct c; cbn [is_connect_event]; rewrite ?Z.add_0_r;
    try (unfold exec; cbn [perform];
         match goal with
         | |- connection_count (store (fst (snd (?m _)))) = _ =>
             assert (Hst : stable (keeps (fun s => connection_count (store (fst s)))) m)
               by (unfold void, get_connection_status, __enter__, __exit__;
                   unfold subscribe, unsubscribe, set_mode, connect, disconnect,
                     _connect_worker, add_tick_callback, add_connect_callback,
                     add_disconnect_callback, add_error_callback,
                     add_order_callback, void, get_latest_tick,
                     get_tick_history, get_subscribed_instruments,
                     get_order_updates, clear_data, _on_close, _on_error,
                     _on_order_update, _on_reconnect, _on_noreconnect, dispatch;
                   repeat stable_step);
             exact (Hst (w, wd))
         end).
  unfold exec; cbn [perform]. rewrite on_connect_run. cbv zeta. cbn [fst snd].
  exact (reconnect_part_keeps_count env (connected w, _)).
Qed.

(** [connection_count] counts the connect events: after any history it
    has grown by the number of connect events in it, and by nothing else
    (a reconnect attempt, a close or a failed [connect] do not count). *)
Theorem connection_count_counts_connects env cs s :
  connection_count (store (fst (run_calls env cs s))) =
  (connection_count (store (fst s))
   + Z.of_nat (length (filter is_connect_event cs)))%Z.
Proof.
  induction cs as [|c cs IH] using rev_ind.
  - simpl. lia.
  - rewrite run_calls_snoc, perform_count_step, IH, filter_app, length_app.
    simpl. destruct (is_connect_event c); simpl; lia.
Qed.

(** ** The stored data over a history *)

Ltac unfold_methods :=
  unfold void, get_connection_status, __enter__, __exit__;
  unfold subscribe, unsubscribe, set_mode, connect, disconnect,
    _connect_worker, add_tick_callback, add_connect_callback,
    add_disconnect_callback, add_error_callback, add_order_callback,
    void, get_latest_tick, get_tick_history, get_subscribed_instruments,
    get_order_updates, clear_data, _on_connect, _resubscribe_all, _on_close,
    _on_error, _on_order_update, _on_reconnect, _on_noreconnect, dispatch,
    subscribe.

Lemma perform_keeps_orders env c :
  match c with
  | EvOrderUpdate _ | CallClearData => True
  | _ => stable (keeps (fun s => order_updates (store (fst s)))) (perform env c)
  end.
Proof.
  destruct c; try exact I; cbn [perform]; unfold_methods; repeat stable_step.
Qed.

Lemma orders_since_clear_snoc cs c :
  orders_since_clear (cs ++ [c]) =
  match c with
  | EvOrderUpdate o => orders_since_clear cs ++ [o]
  | CallClearData => []
  | _ => orders_since_clear cs
  end.
Proof. unfold orders_since_clear. rewrite fold_left_app. reflexivity. Qed.

(** The order log is append-only and has no bound: after any history on
    a new object it holds, in order of arrival, every order update
    delivered since the data was last cleared, and [get_order_updates()]
    returns them all. *)
Theorem order_log_append_only env cs :
  map data (order_updates (store (fst (run_calls env cs state0)))) =
    orders_since_clear cs
  /\ result (get_order_updates None) (run_calls env cs state0) =
     Ok (order_updates (store (fst (run_calls env cs state0)))).
Proof.
  split; [|reflexivity].
  induction cs as [|c cs IH] using rev_ind; [reflexivity|].
  rewrite run_calls_snoc, orders_since_clear_snoc.
  pose proof (perform_keeps_orders env c) as Hk.
  destruct (run_calls env cs state0) as [w wd] eqn:Es.
  destruct c; try (unfold exec; rewrite (Hk (w, wd)); exact IH); clear Hk.
  - reflexivity.
  - unfold exec. cbn [perform]. rewrite on_order_update_run.
    cbn [fst snd store set_store order_updates set_order_updates].
    rewrite map_app. cbn [fst store] in IH. rewrite IH. reflexivity.
Qed.

Lemma delivered_since_clear_snoc cs c :
  delivered_since_clear (cs ++ [c]) =
  match c with
  | EvTicks ticks => delivered_since_clear cs ++ ticks
  | CallClearData => []
  | _ => delivered_since_clear cs
  end.
Proof. unfold delivered_since_clear. rewrite fold_left_app. reflexivity. Qed.

(** Clearing restarts the histories: after any history on a new object,
    the history of a token holds, oldest first, the last 1000 of the ticks
    delivered for it since the data was last cleared; [clear_data] does not
    stop later ticks from being recorded. *)
Theorem tick_history_since_clear env cs token :
  map data (value (get_tick_history token None) (run_calls env cs state0) [])
  = last_n 1000 (filter (tick_for token) (delivered_since_clear cs)).
Proof.
  unfold value. rewrite get_tick_history_run. cbn [fst history_view].
  induction cs as [|c cs IH] using rev_ind; [reflexivity|].
  rewrite run_calls_snoc, delivered_since_clear_snoc.
  pose proof (other_calls_history env c (run_calls env cs state0) token) as Ho.
  destruct c; try (rewrite Ho; exact IH); clear Ho; cbn [perform].
  - rewrite clear_data_history. reflexivity.
  - rewrite on_ticks_history, filter_app.
    destruct (existsb (tick_for token) ticks) eqn:E.
    + rewrite last_n_map, map_app, IH, filter_record_for, stamp_data.
      apply last_n_app_last_n.
    + apply existsb_filter_nil in E. rewrite E, app_nil_r. exact IH.
Qed.




(** ** What a call leaves alone *)

(** Only [subscribe], [unsubscribe], [set_mode] and a connect event can
    write to the subscription map: ticks, order updates, close and error
    events, [connect], [disconnect], [clear_data], registrations and
    queries leave it exactly as it is. *)
Theorem subscriptions_written_only_by env c s :
  writes_subscriptions c = false ->
  the_subscriptions (exec (perform env c) s) = the_subscriptions s.
Proof.
  intros Hw.
  assert (Hst : stable (keeps the_subscriptions) (perform env c)).
  { destruct c; try discriminate; cbn [perform]; unfold_methods;
      repeat stable_step. }
  exact (Hst s).
Qed.

Lemma subscriptions_written_only_by_witness :
  the_subscriptions
    (exec (perform env_ok CallClearData)
       (run_calls env_ok [CallSubscribe (TokenList [100%Z]) None false] state0))
  = [(100%Z, MODE_QUOTE)].
Proof.
  rewrite (subscriptions_written_only_by env_ok CallClearData _ eq_refl).
  reflexivity.
Defined.

(** The vendor client is reached only by [subscribe], [unsubscribe],
    [set_mode], [connect], [disconnect], [__exit__] (which disconnects),
    [get_connection_status] (which asks [is_connected()]) and a connect
    event: every other call or event (ticks, order updates, close, error,
    reconnect and no-reconnect events, [clear_data], registrations,
    [__enter__], and the queries [get_latest_tick], [get_tick_history],
    [get_subscribed_instruments], [get_order_updates]) makes no vendor
    call. *)
Theorem vendor_reached_only_by env c s :
  reaches_vendor c = false ->
  kws_calls (snd (exec (perform env c) s)) = kws_calls (snd s).
Proof.
  intros Hr.
  assert (Hst : stable (keeps (fun s => kws_calls (snd s))) (perform env c)).
  { destruct c; try discriminate; cbn [perform]; unfold_methods;
      repeat stable_step. }
  exact (Hst s).
Qed.

Lemma vendor_reached_only_by_witness :
  kws_calls (snd (exec (perform env_ok (EvTicks [tick_2500])) state0)) = [].
Proof.
  rewrite (vendor_reached_only_by env_ok (EvTicks [tick_2500]) state0 eq_refl).
  reflexivity.
Defined.

(** ** Observers *)

Lemma observers_for_step env e c s :
  observers_for e (fst (exec (perform env c) s)) =
  observers_for e (fst s) ++ registered_for e [c].
Proof.
  assert (Hadd : forall c',
    match c' with
    | CallAddTickCallback _ | CallAddConnectCallback _
    | CallAddDisconnectCallback _ | CallAddErrorCallback _
    | CallAddOrderCallback _ => True
    | _ => observers (exec (perform env c') s) = observers s
    end).
  { intros c'.
    destruct c'; try exact I; unfold exec;
      match goal with
      | |- observers (snd (?m _)) = _ =>
          assert (Hst : stable (keeps observers) m)
            by (cbn [perform]; unfold_methods; repeat stable_step);
          exact (Hst s)
      end. }
  specialize (Hadd c). unfold observers in Hadd.
  destruct s as [w wd].
  destruct c;
    try (injection Hadd as H1 H2 H3 H4 H5;
         destruct e; cbn [observers_for registered_for flat_map];
         rewrite ?app_nil_r; assumption || reflexivity);
    destruct e; cbn; rewrite ?app_nil_r; reflexivity.
Qed.

Lemma registered_for_snoc e cs c :
  registered_for e (cs ++ [c]) = registered_for e cs ++ registered_for e [c].
Proof. unfold registered_for. apply flat_map_app. Qed.

Lemma handler_invocations env c s :
  worker_event c ->
  map inv_id (invocations_since (snd s) (snd (exec (perform env c) s))) =
  map cb_id (observers_for c (fst s)).
Proof.
  intros Hev. destruct s as [w wd].
  destruct c; try contradiction; clear Hev; unfold exec; cbn [perform fst snd].
  - rewrite on_ticks_run. unfold invocations_since. cbn [snd invocations].
    rewrite skipn_exact, map_map. reflexivity.
  - rewrite on_connect_run. cbv zeta. unfold invocations_since.
    cbn [snd invocations].
    pose proof (reconnect_part_keeps_observers env
      (connected w, mkWorld (kws_calls wd) (clock_reads wd) (invocations wd)
                            (log wd ++ [(INFO, "Connected to Kite Ticker")])))
      as Hobs.
    pose proof (reconnect_part_keeps_invocations env
      (connected w, mkWorld (kws_calls wd) (clock_reads wd) (invocations wd)
                            (log wd ++ [(INFO, "Connected to Kite Ticker")])))
      as Hinv.
    unfold keeps, observers in Hobs. unfold keeps in Hinv.
    unfold exec. cbn [fst snd] in Hobs, Hinv.
    rewrite Hinv, skipn_exact, map_map.
    injection Hobs as _ Hc _ _ _. rewrite Hc. destruct w; reflexivity.
  - rewrite on_close_run. unfold invocations_since. cbn [snd invocations].
    rewrite skipn_exact, map_map. reflexivity.
  - rewrite on_error_run. unfold invocations_since. cbn [snd invocations].
    rewrite skipn_exact, map_map. reflexivity.
  - rewrite on_order_update_run. unfold invocations_since.
    cbn [snd invocations]. rewrite skipn_exact, map_map. reflexivity.
Qed.

(** Observers are never removed or reordered: after any history on a new
    object, the observers of a category are those the history registered
    for it, in the order of registration and with repetitions; an event of
    that category then calls them in exactly that order. *)
Theorem observers_are_the_registered env cs e :
  worker_event e ->
  observers_for e (fst (run_calls env cs state0)) = registered_for e cs
  /\ map inv_id
       (invocations_since (snd (run_calls env cs state0))
          (snd (exec (perform env e) (run_calls env cs state0)))) =
     map cb_id (registered_for e cs).
Proof.
  intros Hev.
  assert (Hreg : observers_for e (fst (run_calls env cs state0)) =
                 registered_for e cs).
  { induction cs as [|c cs IH] using rev_ind.
    - destruct e; reflexivity.
    - rewrite run_calls_snoc, observers_for_step, registered_for_snoc, IH.
      reflexivity. }
  split; [exact Hreg|].
  rewrite (handler_invocations env e _ Hev), Hreg. reflexivity.
Qed.

Lemma observers_are_the_registered_witness :
  map inv_id
    (invocations_since
       (snd (run_calls env_ok
               [CallAddTickCallback (cb_quiet 2);
                CallAddOrderCallback (cb_quiet 9);
                CallAddTickCallback (cb_raising 1);
                CallAddTickCallback (cb_quiet 2)] state0))
       (snd (exec (perform env_ok (EvTicks [tick_2500]))
               (run_calls env_ok
                  [CallAddTickCallback (cb_quiet 2);
                   CallAddOrderCallback (cb_quiet 9);
                   CallAddTickCallback (cb_raising 1);
                   CallAddTickCallback (cb_quiet 2)] state0))))
  = [2; 1; 2].
Proof.
  rewrite (proj2 (observers_are_the_registered env_ok
             [CallAddTickCallback (cb_quiet 2);
              CallAddOrderCallback (cb_quiet 9);
              CallAddTickCallback (cb_raising 1);
              CallAddTickCallback (cb_quiet 2)] (EvTicks [tick_2500]) I)).
  reflexivity.
Defined.

(** ** Vendor failures in [unsubscribe] and [set_mode] *)

(** When the vendor's [unsubscribe] raises, [unsubscribe] re-raises and
    the object is exactly what it was: the tokens stay in the subscription
    map and keep their latest ticks. *)
Theorem unsubscribe_vendor_failure env i s tag :
  kws_raises env (kws_calls (snd s)) (KwsUnsubscribe (as_list i)) = Some tag ->
  result (unsubscribe env i) s = Raised (Other tag)
  /\ fst (exec (unsubscribe env i) s) = fst s.
Proof.
  intros Hf. destruct s as [w wd]. unfold result, exec.
  rewrite (unsubscribe_run env i w wd). cbv zeta. cbn [snd] in Hf.
  rewrite Hf. split; reflexivity.
Qed.

Lemma unsubscribe_vendor_failure_witness :
  let env := mkEnv (fun _ c => match c with
                               | KwsUnsubscribe _ => Some 5
                               | _ => None
                               end) (fun n => Z.of_nat n) in
  let s := run_calls env [CallSubscribe (TokenList [100%Z]) None false;
                          EvTicks [mkTick 100 []]] state0 in
  result (unsubscribe env (TokenList [100%Z])) s = Raised (Other 5)
  /\ fst (exec (unsubscribe env (TokenList [100%Z])) s) = fst s.
Proof.
  cbv zeta. apply unsubscribe_vendor_failure. reflexivity.
Defined.

(** When the vendor's [set_mode] raises, [set_mode] re-raises and the
    object is exactly what it was: no recorded mode changes. *)
Theorem set_mode_vendor_failure env mode i s tag :
  kws_raises env (kws_calls (snd s)) (KwsSetMode mode (as_list i)) = Some tag ->
  result (set_mode env mode i) s = Raised (Other tag)
  /\ fst (exec (set_mode env mode i) s) = fst s.
Proof.
  intros Hf. destruct s as [w wd]. unfold result, exec.
  rewrite (set_mode_run env mode i w wd). cbv zeta. cbn [snd] in Hf.
  rewrite Hf. split; reflexivity.
Qed.

Lemma set_mode_vendor_failure_witness :
  let s := run_calls env_set_mode_fails
             [CallSubscribe (TokenList [100%Z]) None false] state0 in
  result (set_mode env_set_mode_fails MODE_FULL (TokenList [100%Z])) s
    = Raised (Other 8)
  /\ fst (exec (set_mode env_set_mode_fails MODE_FULL (TokenList [100%Z])) s)
     = fst s.
Proof.
  cbv zeta. apply set_mode_vendor_failure. reflexivity.
Defined.

(** ** What the vendor client is asked *)

(** The vendor traffic of [subscribe]: a rejected mode makes no call; an
    accepted one makes the vendor's [subscribe] call with the whole token
    list, followed, when the mode is not QUOTE and that call returned, by
    one [set_mode] call with the mode and the same list.  Whatever the
    outcome, nothing but the subscription map can change in the data. *)
Theorem subscribe_vendor_calls env i mode r s :
  calls_since (snd s) (snd (exec (subscribe env i mode r) s)) =
    (if accepted mode
     then KwsSubscribe (as_list i) ::
          (if (str_or mode MODE_QUOTE =? MODE_QUOTE)%string then []
           else match kws_raises env (kws_calls (snd s))
                                 (KwsSubscribe (as_list i)) with
                | Some _ => []
                | None => [KwsSetMode (str_or mode MODE_QUOTE) (as_list i)]
                end)
     else [])
  /\ set_subscribed_instruments (the_subscriptions s)
       (store (fst (exec (subscribe env i mode r) s))) = store (fst s).
Proof.
  destruct s as [w wd]. unfold exec.
  destruct (accepted mode) eqn:Hacc.
  - rewrite (subscribe_run env i mode r w wd Hacc). cbv zeta. cbn [snd].
    unfold the_subscriptions. cbn [fst].
    destruct (kws_raises env (kws_calls wd) (KwsSubscribe (as_list i))).
    + cbn [fst snd]. split.
      * rewrite (calls_since_app wd _ [KwsSubscribe (as_list i)]) by reflexivity.
        destruct (_ =? MODE_QUOTE)%string; reflexivity.
      * apply set_subscribed_same.
    + destruct (_ =? MODE_QUOTE)%string.
      * cbn [fst snd]. split.
        -- apply calls_since_app. reflexivity.
        -- unfold subscribed_after. cbn [store set_store].
           destruct (store w); reflexivity.
      * destruct (kws_raises env _ (KwsSetMode _ _)); cbn [fst snd]; split.
        all: try (apply calls_since_app; unfold world_add; cbn [kws_calls];
                  reflexivity).
        all: try apply set_subscribed_same.
        unfold subscribed_after. cbn [store set_store].
        destruct (store w); reflexivity.
  - rewrite (subscribe_rejects env i mode r (w, wd) Hacc). cbn [fst snd].
    split; [apply skipn_all | apply set_subscribed_same].
Qed.

(** [set_mode] does not check the mode: for every mode string it makes
    exactly one vendor [set_mode] call, carrying that mode and the whole
    token list (tokens that are not subscribed included), and when the
    vendor accepts the call it returns and records the mode for the
    subscribed tokens, even a mode [subscribe] would reject. *)
Theorem set_mode_forwards_any_mode env mode i s :
  calls_since (snd s) (snd (exec (set_mode env mode i) s)) =
    [KwsSetMode mode (as_list i)]
  /\ (kws_raises env (kws_calls (snd s)) (KwsSetMode mode (as_list i)) = None ->
      result (set_mode env mode i) s = Ok tt
      /\ forall t, In t (as_list i) ->
           In t (PyDict.keys (the_subscriptions s)) ->
           PyDict.get t (the_subscriptions (exec (set_mode env mode i) s))
           = Some mode).
Proof.
  destruct s as [w wd]. unfold result, exec.
  rewrite (set_mode_run env mode i w wd). cbv zeta. cbn [snd].
  split.
  - destruct (kws_raises env (kws_calls wd) (KwsSetMode mode (as_list i)));
      apply calls_since_app; reflexivity.
  - intros Hok. rewrite Hok. split; [reflexivity|].
    intros t Hin Hkey. unfold the_subscriptions, remoded_after. cbn.
    rewrite get_fold_remode.
    apply mem_token_In in Hin. apply dict_contains_In in Hkey.
    unfold the_subscriptions in Hkey. cbn [fst] in Hkey.
    rewrite Hin, Hkey. reflexivity.
Qed.

Lemma set_mode_forwards_any_mode_witness :
  let s := run_calls env_ok [CallSubscribe (TokenList [100%Z]) None false]
                     state0 in
  accepted (Some "depth") = false
  /\ result (set_mode env_ok "depth" (TokenList [100%Z; 999%Z])) s = Ok tt
  /\ PyDict.get 100%Z
       (the_subscriptions
          (exec (set_mode env_ok "depth" (TokenList [100%Z; 999%Z])) s))
     = Some "depth".
Proof.
  cbv zeta. split; [reflexivity|].
  destruct (proj2 (set_mode_forwards_any_mode env_ok "depth"
                     (TokenList [100%Z; 999%Z])
                     (run_calls env_ok
                        [CallSubscribe (TokenList [100%Z]) None false] state0))
              eq_refl) as [Hr Hg].
  split; [exact Hr|].
  apply Hg; simpl; tauto.
Defined.

(** ** The latest tick and the history agree *)

Lemma find_rev_None {A} (f : A -> bool) l :
  find f (rev l) = None -> existsb f l = false.
Proof.
  intros Hn. destruct (existsb f l) eqn:E; [|reflexivity].
  apply existsb_exists in E as [x [Hin Hx]].
  apply in_rev in Hin. pose proof (find_none _ _ Hn x Hin) as Hf.
  congruence.
Qed.

Lemma find_rev_filter {A} (f : A -> bool) l x :
  find f (rev l) = Some x -> exists pre, filter f l = pre ++ [x].
Proof.
  induction l as [|a l IH] using rev_ind; [discriminate|].
  rewrite rev_app_distr, filter_app. simpl.
  destruct (f a) eqn:E.
  - intros H. injection H as <-. exists (filter f l). reflexivity.
  - intros H. destruct (IH H) as [pre Hp]. exists pre.
    rewrite app_nil_r. exact Hp.
Qed.

Lemma last_n_snoc {A} n (l : list A) x :
  last_n (S n) (l ++ [x]) = last_n n l ++ [x].
Proof.
  unfold last_n. rewrite length_app, skipn_app. simpl length.
  replace (length l + 1 - S n) with (length l - n) by lia.
  replace (length l - n - length l) with 0 by lia. reflexivity.
Qed.

Lemma perform_keeps_latest env c :
  match c with
  | EvTicks _ | CallClearData | CallUnsubscribe _ => True
  | _ => stable (keeps the_latest_ticks) (perform env c)
  end.
Proof.
  destruct c; try exact I; cbn [perform]; unfold_methods; repeat stable_step.
Qed.

Lemma on_ticks_latest env ticks s k :
  PyDict.get k (the_latest_ticks (exec (_on_ticks env ticks) s)) =
  match find (tick_for k) (rev ticks) with
  | Some t => Some t
  | None => PyDict.get k (the_latest_ticks s)
  end.
Proof.
  destruct s as [w wd]. unfold exec. rewrite on_ticks_run.
  unfold the_latest_ticks. cbn [fst snd store set_store].
  apply ticks_recorded_latest.
Qed.

Lemma perform_latest_is_newest env c s :
  latest_is_newest s -> latest_is_newest (exec (perform env c) s).
Proof.
  intros Hinv k tick Hget.
  pose proof (perform_keeps_latest env c) as Hl.
  pose proof (other_calls_history env c s k) as Hh.
  destruct c;
    try (rewrite Hh; apply Hinv; rewrite <- (Hl s); exact Hget);
    clear Hl; cbn [perform] in *.
  - (* unsubscribe *)
    rewrite Hh. apply Hinv. clear Hh.
    destruct s as [w wd]. unfold exec in Hget.
    rewrite (unsubscribe_run env instruments w wd) in Hget. cbv zeta in Hget.
    destruct (kws_raises env (kws_calls wd) (KwsUnsubscribe (as_list instruments))).
    + exact Hget.
    + cbn [snd] in Hget.
      destruct (unsubscribed_state_fields (as_list instruments) w
                  (world_add wd [KwsUnsubscribe (as_list instruments)]
                     [(INFO, "Unsubscribed from instruments")]))
        as (_ & _ & Hlat).
      rewrite Hlat, get_fold_pop in Hget.
      destruct (mem_token k (as_list instruments)); [discriminate | exact Hget].
  - (* clear_data *)
    discriminate.
  - (* ticks *)
    clear Hh. rewrite on_ticks_latest in Hget. rewrite on_ticks_history.
    destruct (find (tick_for k) (rev ticks)) as [t|] eqn:Ef.
    + injection Hget as ->.
      pose proof (find_some _ _ Ef) as [_ Hfor].
      split; [apply Z.eqb_eq; exact Hfor|].
      assert (Hex : existsb (tick_for k) ticks = true).
      { apply existsb_exists. exists tick. split; [|exact Hfor].
        apply in_rev. apply (find_some _ _ Ef). }
      rewrite Hex.
      pose proof (find_record_for k
                    (rev (stamp env (S (clock_reads (snd s))) ticks))) as Hr.
      rewrite map_rev, stamp_data, Ef in Hr.
      destruct (find (record_for k)
                  (rev (stamp env (S (clock_reads (snd s))) ticks)))
        as [r|] eqn:Er; [|discriminate].
      injection Hr as Hd.
      destruct (find_rev_filter _ _ _ Er) as [pre Hpre].
      rewrite Hpre, app_assoc.
      change 1000 with (S 999). rewrite last_n_snoc.
      exists (last_n 999 (the_history s k ++ pre)), (timestamp r).
      destruct r as [ts d]. simpl in Hd. subst d. reflexivity.
    + rewrite (find_rev_None _ _ Ef). apply Hinv. exact Hget.
Qed.

(** The latest tick of a token is always the newest entry of its stored
    history: after any history on a new object, when [get_latest_tick]
    has a tick for a token, the tick carries that token and the token's
    history ends with it. *)
Theorem latest_tick_is_newest_in_history env cs k tick :
  result (get_latest_tick k) (run_calls env cs state0) = Ok (Some tick) ->
  instrument_token tick = k
  /\ exists older t,
       value (get_tick_history k None) (run_calls env cs state0) [] =
       older ++ [mkStamped t tick].
Proof.
  assert (Hinv : latest_is_newest (run_calls env cs state0)).
  { induction cs as [|c cs IH] using rev_ind.
    - intros k' tick' H. discriminate.
    - rewrite run_calls_snoc. apply perform_latest_is_newest. exact IH. }
  unfold result, value. rewrite get_latest_tick_run, get_tick_history_run.
  cbn [fst history_view]. intros H. injection H as H. exact (Hinv k tick H).
Qed.

Lemma latest_tick_is_newest_in_history_witness :
  exists older t,
    value (get_tick_history 738561 None)
      (run_calls env_ok
         [EvTicks [mkTick 738561 [("last_price", 2400%Z)]];
          EvTicks [mkTick 5633 []; tick_2500]] state0) [] =
    older ++ [mkStamped t tick_2500].
Proof.
  apply (latest_tick_is_newest_in_history env_ok
           [EvTicks [mkTick 738561 [("last_price", 2400%Z)]];
            EvTicks [mkTick 5633 []; tick_2500]] 738561 tick_2500).
  reflexivity.
Defined.

(** ** A reconnect and the subscription map *)

Lemma dict_set_same {K V} `{EqKey K} (k : K) (v : V) (d : PyDict.t K V) :
  NoDup (PyDict.keys d) -> In (k, v) d -> PyDict.set k v d = d.
Proof.
  induction d as [|[k0 v0] d IH]; simpl; [tauto|].
  intros Hnd [Heq|Hin].
  - injection Heq as -> ->. rewrite keqb_refl. reflexivity.
  - inversion Hnd as [|? ? Hn Hnd']; subst.
    destruct (keqb_spec k k0) as [->|Hne].
    + exfalso. apply Hn. apply in_map_iff. exists (k0, v).
      split; [reflexivity | exact Hin].
    + f_equal. apply IH; assumption.
Qed.

Lemma fold_set_same (l : list Z) (m : string) (d : PyDict.t Z string) :
  NoDup (PyDict.keys d) -> (forall t, In t l -> In (t, m) d) ->
  fold_left (fun d t => PyDict.set t m d) l d = d.
Proof.
  intros Hnd. induction l as [|x l IH]; intros Hin; simpl; [reflexivity|].
  rewrite dict_set_same; [|exact Hnd | apply Hin; left; reflexivity].
  apply IH. intros t Ht. apply Hin. right. exact Ht.
Qed.

Lemma fold_set_keys (l : list Z) (m : string) (d : PyDict.t Z string) :
  (forall t, In t l -> In t (PyDict.keys d)) ->
  PyDict.keys (fold_left (fun d t => PyDict.set t m d) l d) = PyDict.keys d.
Proof.
  revert d. induction l as [|x l IH]; intros d Hin; simpl; [reflexivity|].
  rewrite IH.
  - apply dict_keys_set_in. apply Hin. left. reflexivity.
  - intros t Ht. rewrite dict_keys_set_in by (apply Hin; left; reflexivity).
    apply Hin. right. exact Ht.
Qed.

(** One round of the resubscription loop: the keys stay, and so does the
    whole map when the group's tokens are recorded under the group's mode. *)
Lemma resubscribe_group_map env mt s :
  (forall t, In t (snd mt) -> In t (PyDict.keys (the_subscriptions s))) ->
  PyDict.keys (the_subscriptions (exec (resubscribe_group env mt) s)) =
    PyDict.keys (the_subscriptions s)
  /\ (NoDup (PyDict.keys (the_subscriptions s)) ->
      fst mt <> "" ->
      (forall t, In t (snd mt) -> In (t, fst mt) (the_subscriptions s)) ->
      the_subscriptions (exec (resubscribe_group env mt) s) =
      the_subscriptions s).
Proof.
  intros Hkeys. destruct s as [w wd].
  unfold exec, resubscribe_group, try_except.
  destruct (accepted (Some (fst mt))) eqn:Hacc.
  - rewrite (subscribe_run env _ _ true w wd Hacc). cbv zeta. cbn [as_list].
    assert (Hup : forall wd',
      PyDict.keys (the_subscriptions
         (subscribed_after (snd mt) (str_or (Some (fst mt)) MODE_QUOTE) w, wd'))
      = PyDict.keys (the_subscriptions (w, wd))
      /\ (NoDup (PyDict.keys (the_subscriptions (w, wd))) ->
          fst mt <> "" ->
          (forall t, In t (snd mt) -> In (t, fst mt) (the_subscriptions (w, wd))) ->
          the_subscriptions
            (subscribed_after (snd mt) (str_or (Some (fst mt)) MODE_QUOTE) w, wd')
          = the_subscriptions (w, wd))).
    { intros wd'. unfold the_subscriptions, subscribed_after in *.
      cbn [fst store set_store subscribed_instruments
           set_subscribed_instruments] in *.
      split.
      - apply fold_set_keys. exact Hkeys.
      - intros Hnd Hne Hin. unfold str_or.
        destruct (String.eqb_spec (fst mt) ""); [contradiction|].
        apply fold_set_same; assumption. }
    destruct (kws_raises env (kws_calls wd) (KwsSubscribe (snd mt))).
    + split; [reflexivity | intros; reflexivity].
    + destruct (_ =? MODE_QUOTE)%string.
      * apply Hup.
      * destruct (kws_raises env _ (KwsSetMode _ _)).
        -- split; [reflexivity | intros; reflexivity].
        -- apply Hup.
  - rewrite (subscribe_rejects env _ _ true (w, wd) Hacc).
    split; [reflexivity | intros; reflexivity].
Qed.

Lemma resubscribe_loop_map env groups s :
  (forall mt t, In mt groups -> In t (snd mt) ->
                In t (PyDict.keys (the_subscriptions s))) ->
  PyDict.keys (the_subscriptions
                 (exec (for_each groups (resubscribe_group env)) s)) =
    PyDict.keys (the_subscriptions s)
  /\ (NoDup (PyDict.keys (the_subscriptions s)) ->
      (forall mt, In mt groups -> fst mt <> "") ->
      (forall mt t, In mt groups -> In t (snd mt) ->
                    In (t, fst mt) (the_subscriptions s)) ->
      the_subscriptions (exec (for_each groups (resubscribe_group env)) s) =
      the_subscriptions s).
Proof.
  revert s. induction groups as [|g groups IH]; intros s Hkeys.
  - split; [reflexivity | intros; reflexivity].
  - assert (He : exec (for_each (g :: groups) (resubscribe_group env)) s =
                 exec (for_each groups (resubscribe_group env))
                      (exec (resubscribe_group env g) s)).
    { unfold exec at 1 2.
      rewrite (exec_for_each_cons g groups _ s (returns_resubscribe_group env g)).
      reflexivity. }
    rewrite He.
    destruct (resubscribe_group_map env g s
                (fun t Ht => Hkeys g t (or_introl eq_refl) Ht)) as [Hk1 He1].
    destruct (IH (exec (resubscribe_group env g) s)) as [Hk2 He2].
    { intros mt t Hmt Ht. rewrite Hk1. apply (Hkeys mt t); [right|]; assumption. }
    split.
    + rewrite Hk2. exact Hk1.
    + intros Hnd Hne Hin.
      assert (E1 : the_subscriptions (exec (resubscribe_group env g) s) =
                   the_subscriptions s).
      { apply He1; [exact Hnd | apply Hne; left; reflexivity|].
        intros t Ht. apply (Hin g t); [left; reflexivity | exact Ht]. }
      rewrite He2.
      * exact E1.
      * rewrite E1. exact Hnd.
      * intros mt Hmt. apply Hne. right. exact Hmt.
      * intros mt t Hmt Ht. rewrite E1. apply (Hin mt t); [right|]; assumption.
Qed.

Lemma group_tokens_recorded items m tokens t :
  In (m, tokens) (group_by_mode items) -> In t tokens -> In (t, m) items.
Proof.
  intros Hg Ht.
  destruct (group_by_mode_groups items) as (_ & _ & Htok).
  rewrite (Htok m tokens Hg) in Ht. unfold tokens_with_mode in Ht.
  apply in_map_iff in Ht as [[t' m'] [Heq Hin]]. simpl in Heq. subst t'.
  apply filter_In in Hin as [Hin Hm]. simpl in Hm.
  apply String.eqb_eq in Hm. subst m'. exact Hin.
Qed.

Lemma reconnect_part_exec env w wd :
  exec (reconnect_part env) (w, wd) =
  if PyDict.truthy (subscribed_instruments (store w)) &&
     (1 <? connection_count (store w))%Z
  then exec (for_each (group_by_mode (subscribed_instruments (store w)))
                      (resubscribe_group env))
            (w, mkWorld (kws_calls wd) (clock_reads wd) (invocations wd)
                  (log wd ++ [(INFO, "Resubscribing to instruments after reconnection...")]))
  else (w, wd).
Proof.
  unfold exec, reconnect_part.
  unfold bind at 1, get_store at 1. cbn [fst snd].
  destruct (PyDict.truthy (subscribed_instruments (store w))) eqn:Et;
    destruct (1 <? connection_count (store w))%Z; cbn [andb];
    try reflexivity.
  unfold bind at 1, logger at 1. cbn [fst snd].
  unfold _resubscribe_all, bind at 1, get_store at 1. cbn [fst snd].
  rewrite Et. reflexivity.
Qed.

Lemma reconnect_part_map env s :
  PyDict.keys (the_subscriptions (exec (reconnect_part env) s)) =
    PyDict.keys (the_subscriptions s)
  /\ (NoDup (PyDict.keys (the_subscriptions s)) ->
      (forall t m, In (t, m) (the_subscriptions s) -> m <> "") ->
      the_subscriptions (exec (reconnect_part env) s) = the_subscriptions s).
Proof.
  destruct s as [w wd]. rewrite reconnect_part_exec.
  destruct (PyDict.truthy (subscribed_instruments (store w)) &&
            (1 <? connection_count (store w))%Z).
  - set (s1 := (w, mkWorld (kws_calls wd) (clock_reads wd) (invocations wd)
                     (log wd ++ [(INFO, "Resubscribing to instruments after reconnection...")]))).
    destruct (resubscribe_loop_map env
                (group_by_mode (subscribed_instruments (store w))) s1)
      as [Hk He].
    { intros [m tokens] t Hmt Ht. cbn [snd] in Ht.
      apply in_map_iff. exists (t, m). split; [reflexivity|].
      exact (group_tokens_recorded _ m tokens t Hmt Ht). }
    split; [exact Hk|].
    intros Hnd Hne. apply He; [exact Hnd | |].
    + intros [m tokens] Hmt. cbn [fst].
      destruct (group_by_mode_groups (subscribed_instruments (store w)))
        as (_ & Hmodes & _).
      assert (Hm : In m (map snd (subscribed_instruments (store w)))).
      { apply Hmodes. apply in_map_iff. exists (m, tokens).
        split; [reflexivity | exact Hmt]. }
      apply in_map_iff in Hm as [[t m'] [Heq Hin]]. simpl in Heq. subst m'.
      exact (Hne t m Hin).
    + intros [m tokens] t Hmt Ht.
      exact (group_tokens_recorded _ m tokens t Hmt Ht).
  - split; [reflexivity | intros; reflexivity].
Qed.

(** A connect event never drops a subscription: whatever the vendor
    client does, the subscription map has the same keys afterwards; and
    when no recorded mode is empty the map is unchanged altogether (a
    resubscription writes back the modes it read). *)
Theorem reconnect_keeps_subscriptions env r s :
  PyDict.keys (the_subscriptions (exec (_on_connect env r) s)) =
    PyDict.keys (the_subscriptions s)
  /\ (NoDup (PyDict.keys (the_subscriptions s)) ->
      (forall t m, In (t, m) (the_subscriptions s) -> m <> "") ->
      the_subscriptions (exec (_on_connect env r) s) = the_subscriptions s).
Proof.
  destruct s as [w wd]. unfold exec. rewrite on_connect_run. cbv zeta.
  unfold the_subscriptions at 1 3. cbn [fst snd].
  exact (reconnect_part_map env
           (connected w,
            mkWorld (kws_calls wd) (clock_reads wd) (invocations wd)
                    (log wd ++ [(INFO, "Connected to Kite Ticker")]))).
Qed.

Lemma reconnect_keeps_subscriptions_witness :
  let s := run_calls env_ok
             [CallSubscribe (TokenList [100%Z; 300%Z]) None false;
              CallSubscribe (TokenList [200%Z]) (Some MODE_FULL) false;
              CallSetMode "depth" (TokenList [300%Z]);
              EvConnect "open"] state0 in
  the_subscriptions (exec (_on_connect env_set_mode_fails "again") s) =
  [(100%Z, MODE_QUOTE); (300%Z, "depth"); (200%Z, MODE_FULL)].
Proof.
  cbv zeta.
  rewrite (proj2 (reconnect_keeps_subscriptions env_set_mode_fails "again" _)).
  - reflexivity.
  - cbn. repeat constructor; simpl; intuition discriminate.
  - cbn. intros t m [H|[H|[H|[]]]]; injection H as <- <-; discriminate.
Defined.

(** ** Queries with a count *)

Lemma skipn_min {A} n (l : list A) :
  skipn (Nat.min n (length l)) l = skipn n l.
Proof.
  destruct (Nat.le_gt_cases n (length l)) as [Hle|Hgt].
  - rewrite Nat.min_l by exact Hle. reflexivity.
  - rewrite Nat.min_r by lia. rewrite !skipn_all2 by lia. reflexivity.
Qed.

Lemma slice_from_drop {A} (c : Z) (h : list A) :
  (c < 0)%Z -> slice_from (- c) h = skipn (Z.to_nat (- c)) h.
Proof.
  intros Hc. unfold slice_from.
  destruct (Z.ltb_spec (- c) 0); [lia|].
  rewrite <- (skipn_min (Z.to_nat (- c)) h). f_equal. lia.
Qed.

Lemma history_view_count {A} (c : Z) (h : list A) :
  ((0 < c)%Z -> history_view (Some c) h = last_n (Z.to_nat c) h)
  /\ ((c < 0)%Z -> history_view (Some c) h = skipn (Z.to_nat (- c)) h).
Proof.
  unfold history_view, truthy_int. split; intros Hc;
    (destruct (Z.eqb_spec c 0); [lia|]); cbn [negb].
  - apply slice_from_last. exact Hc.
  - apply slice_from_drop. exact Hc.
Qed.

Lemma get_order_updates_run count s :
  get_order_updates count s =
  (Ok (history_view count (order_updates (store (fst s)))), s).
Proof.
  unfold get_order_updates, bind, get_store, history_view.
  destruct count as [c|]; [|reflexivity].
  destruct (truthy_int (Some c)); reflexivity.
Qed.

(** [get_tick_history] and [get_order_updates] with a count, as Python's
    slice [l[-count:]] has it: a positive count gives the last [count]
    stored entries, oldest first, and the whole list when fewer are stored;
    a negative count drops the oldest [-count] entries.  Neither call
    changes the state. *)
Theorem history_queries_by_count token c s :
  ((0 < c)%Z ->
     get_tick_history token (Some c) s =
       (Ok (last_n (Z.to_nat c) (the_history s token)), s)
     /\ get_order_updates (Some c) s =
       (Ok (last_n (Z.to_nat c) (order_updates (store (fst s)))), s)
     /\ ((Z.of_nat (length (the_history s token)) <= c)%Z ->
         get_tick_history token (Some c) s = (Ok (the_history s token), s)))
  /\ ((c < 0)%Z ->
     get_tick_history token (Some c) s =
       (Ok (skipn (Z.to_nat (- c)) (the_history s token)), s)
     /\ get_order_updates (Some c) s =
       (Ok (skipn (Z.to_nat (- c)) (order_updates (store (fst s)))), s)).
Proof.
  rewrite get_tick_history_run, get_order_updates_run.
  split; intros Hc.
  - rewrite !(proj1 (history_view_count c _) Hc).
    split; [reflexivity | split; [reflexivity|]].
    intros Hlen. rewrite last_n_short by lia. reflexivity.
  - rewrite !(proj2 (history_view_count c _) Hc). split; reflexivity.
Qed.

Lemma history_queries_by_count_witness :
  let s := run_calls env_ok
             [EvTicks [mkTick 5 [("last_price", 1%Z)];
                       mkTick 5 [("last_price", 2%Z)];
                       mkTick 5 [("last_price", 3%Z)]]] state0 in
  map data (value (get_tick_history 5 (Some 2%Z)) s []) =
    [mkTick 5 [("last_price", 2%Z)]; mkTick 5 [("last_price", 3%Z)]]
  /\ map data (value (get_tick_history 5 (Some (-2)%Z)) s []) =
    [mkTick 5 [("last_price", 3%Z)]].
Proof.
  cbv zeta. unfold value. split.
  - rewrite (proj1 (proj1 (history_queries_by_count 5 2 _) eq_refl)).
    reflexivity.
  - rewrite (proj1 (proj2 (history_queries_by_count 5 (-2) _) eq_refl)).
    reflexivity.
Defined.

(** ** Connecting and disconnecting *)

(** [connect], [disconnect] and [__exit__] swallow vendor failures: each
    returns whether or not the vendor call raises ([__exit__] returns a
    falsy value, so it suppresses nothing); [connect] makes exactly one
    vendor connect call and leaves the running flag set, [disconnect] makes
    exactly one vendor close call and leaves it unset, and [__exit__] is
    [disconnect]. *)
Theorem connect_disconnect_never_raise env threaded s :
  result (connect env threaded) s = Ok tt
  /\ result (disconnect env) s = Ok tt
  /\ result (__exit__ env) s = Ok false
  /\ calls_since (snd s) (snd (exec (connect env threaded) s)) = [KwsConnect]
  /\ calls_since (snd s) (snd (exec (disconnect env) s)) = [KwsClose]
  /\ is_running (store (fst (exec (connect env threaded) s))) = true
  /\ is_running (store (fst (exec (disconnect env) s))) = false
  /\ exec (__exit__ env) s = exec (disconnect env) s.
Proof.
  destruct s as [w wd]. unfold result, exec, __exit__, bind.
  rewrite connect_run, disconnect_run. cbn [fst snd].
  repeat match goal with |- _ /\ _ => split end; try reflexivity.
  - destruct (kws_raises env (kws_calls wd) KwsConnect);
      apply calls_since_app; reflexivity.
  - apply calls_since_app. reflexivity.
  - destruct (kws_raises env (kws_calls wd) KwsConnect); reflexivity.
Qed.

(** ** The selection of [export_data] *)

Lemma export_fold_get tokens (td acc : PyDict.t Z (list (Stamped Tick))) k :
  PyDict.get k
    (fold_left (fun export_data token =>
                  match PyDict.get token td with
                  | Some h => PyDict.set token h export_data
                  | None => export_data
                  end) tokens acc) =
  match (if mem_token k tokens then PyDict.get k td else None) with
  | Some h => Some h
  | None => PyDict.get k acc
  end.
Proof.
  revert acc. induction tokens as [|x tokens IH]; intros acc; simpl.
  - reflexivity.
  - rewrite IH. destruct (mem_token k tokens) eqn:Em.
    + rewrite orb_true_r.
      destruct (PyDict.get k td) as [h|] eqn:Ek; [reflexivity|].
      destruct (PyDict.get x td) as [hx|] eqn:Ex; [|reflexivity].
      rewrite dict_get_set. cbn [keqb EqKey_Z].
      destruct (Z.eqb_spec k x) as [->|]; [congruence | reflexivity].
    + rewrite orb_false_r.
      destruct (Z.eqb_spec k x) as [->|Hne].
      * destruct (PyDict.get x td) as [hx|]; [|reflexivity].
        rewrite dict_get_set. cbn [keqb EqKey_Z]. rewrite Z.eqb_refl.
        reflexivity.
      * destruct (PyDict.get x td) as [hx|]; [|reflexivity].
        rewrite dict_get_set. cbn [keqb EqKey_Z].
        destruct (Z.eqb_spec k x); [contradiction | reflexivity].
Qed.

Lemma export_fold_NoDup tokens (td acc : PyDict.t Z (list (Stamped Tick))) :
  NoDup (PyDict.keys acc) ->
  NoDup (PyDict.keys
    (fold_left (fun export_data token =>
                  match PyDict.get token td with
                  | Some h => PyDict.set token h export_data
                  | None => export_data
                  end) tokens acc)).
Proof.
  revert acc. induction tokens as [|x tokens IH]; intros acc Hnd; simpl.
  - exact Hnd.
  - apply IH. destruct (PyDict.get x td); [apply dict_NoDup_set|]; exact Hnd.
Qed.

(** What [export_data] selects for writing: with no token list, or with
    an empty one, every stored history; with a non-empty list, exactly the
    histories of the listed tokens that have one, each once however often
    the token is listed, and a listed token without a history is skipped
    without an error. *)
Theorem export_selection_spec tokens s :
  export_selection None s = tick_data s
  /\ export_selection (Some []) s = tick_data s
  /\ (tokens <> [] ->
      (forall k, PyDict.get k (export_selection (Some tokens) s) =
                 if mem_token k tokens then PyDict.get k (tick_data s)
                 else None)
      /\ NoDup (PyDict.keys (export_selection (Some tokens) s))).
Proof.
  split; [reflexivity | split; [reflexivity|]].
  intros Hne. destruct tokens as [|x tokens]; [congruence|].
  split.
  - intros k.
    exact (eq_trans
             (export_fold_get (x :: tokens) (tick_data s) PyDict.empty k)
             (match (if mem_token k (x :: tokens)
                     then PyDict.get k (tick_data s) else None) as o
                    return match o with Some h => Some h | None => None end = o
              with Some h => eq_refl | None => eq_refl end)).
  - exact (export_fold_NoDup (x :: tokens) (tick_data s) PyDict.empty
             (NoDup_nil Z)).
Qed.

Lemma export_selection_spec_witness :
  let s := store (fst (run_calls env_ok
                         [EvTicks [mkTick 5 []; mkTick 6 []]] state0)) in
  PyDict.keys (export_selection (Some [6%Z; 7%Z; 6%Z]) s) = [6%Z]
  /\ PyDict.get 7%Z (export_selection (Some [6%Z; 7%Z; 6%Z]) s) = None.
Proof.
  cbv zeta. split; [reflexivity|].
  rewrite (proj1 (proj2 (proj2 (export_selection_spec [6%Z; 7%Z; 6%Z] _))
                    ltac:(discriminate))).
  reflexivity.
Defined.

(** ** The status snapshot *)

(** [get_connection_status] asks the vendor client once, [is_connected()],
    and has no [try] around it: when that call raises, the exception reaches
    the caller and nothing is logged; when it returns, the snapshot reports
    the recorded status, connection count and last-tick time, the number of
    entries of the subscription map, and the vendor's answer.  The object is
    never changed. *)
Theorem get_connection_status_asks_vendor env is_connected s :
  calls_since (snd s) (snd (exec (get_connection_status env is_connected) s))
    = [KwsIsConnected]
  /\ fst (exec (get_connection_status env is_connected) s) = fst s
  /\ log (snd (exec (get_connection_status env is_connected) s)) = log (snd s)
  /\ result (get_connection_status env is_connected) s =
     match kws_raises env (kws_calls (snd s)) KwsIsConnected with
     | Some tag => Raised (Other tag)
     | None =>
         Ok (mkConnectionStatus
               (connection_status (store (fst s)))
               (connection_count (store (fst s)))
               (last_tick_time (store (fst s)))
               (length (the_subscriptions s))
               is_connected)
     end.
Proof.
  destruct s as [w wd].
  unfold result, exec, get_connection_status, bind, get_store, kws.
  cbn [fst snd].
  destruct (kws_raises env (kws_calls wd) KwsIsConnected); cbn [fst snd];
    (split; [apply calls_since_app; reflexivity|]);
    repeat split.
Qed.
